(** * OddsEngine proxy: the request handlers and their cache

    A shallow embedding of the four server variants of the repository

      - [railway-proxy-server.js] and [railway-proxy-server-fixed.js]
        (module [Railway]; the two [app.get('/v1/*')] handlers are the same
        statement for statement, apart from logging and [method: 'GET']),
      - the middleware variant with [cacheMiddleware] (module [Middleware]),
      - [proxy.js] (module [Simple]),

    and the properties of the forwarding and caching logic.

    Modelling conventions.  JavaScript strings are byte strings ([string]),
    [undefined] is [None], [Date.now()] is an integer number of milliseconds
    ([Z]), the [Map] used as cache is a [gmap string entry].  A handler runs
    against a [world] (the cache and the log of upstream calls) in a small
    state-and-exception monad; [try { ... } catch (error) { ... }] is
    [try_catch].  What the handler hands to Express ([res.status(s).json(b)])
    is the [response] record.  One handler run reads the clock at most once
    per call site and calls [fetch] at most once, so the readings and the
    behaviour of the upstream are given per run in an [env].  In the
    modules [Railway], [Middleware] and [Simple] every awaited promise is
    taken to settle; module [Awaiting] is the Railway handler over promises
    that may stay pending, and agrees with [Railway] when they settle.
    Handler runs are taken one after the other: a run is one step on the
    world.  The Railway and middleware handlers never look inside a payload,
    so JSON numbers are kept as integers. *)

From Stdlib Require Import ZArith Ascii String List Bool Lia.
From stdpp Require Import base option gmap strings pretty.

Set Warnings "-register-all".
Local Open Scope Z_scope.

(** ** JavaScript values that the handlers touch *)

(** JSON values: upstream payloads and the bodies given to [res.json]. *)
Inductive json : Type :=
| JNull
| JBool (b : bool)
| JNum (n : Z)
| JStr (s : string)
| JArr (items : list json)
| JObj (fields : list (string * json)).

(** The outcome of awaiting a promise. *)
Inductive settled (A : Type) : Type :=
| Fulfilled (value : A)
| Rejected (message : string).
Arguments Fulfilled {A} value.
Arguments Rejected {A} message.

(** Truthiness of a value that is a string or [undefined]. *)
Definition truthy_str (s : string) : bool :=
  match s with
  | EmptyString => false
  | String _ _ => true
  end.

Definition truthy (v : option string) : bool :=
  match v with
  | Some s => truthy_str s
  | None => false
  end.

(** [a || b] on such values. *)
Definition js_or (a b : option string) : option string :=
  if truthy a then a else b.

(** ** [req.query] and [new URLSearchParams(req.query).toString()] *)

(** A value of Express's parsed query object: a string, an array (a
    parameter given several times) or a nested object. *)
Inductive qval : Type :=
| QStr (s : string)
| QArr (items : list qval)
| QObj (fields : list (string * qval)).

(** [String(v)], the conversion the [URLSearchParams] constructor applies to
    every property value of the object it is given. *)
Fixpoint js_String (v : qval) : string :=
  match v with
  | QStr s => s
  | QArr items =>
      (fix join (l : list qval) : string :=
         match l with
         | [] => EmptyString
         | x :: rest =>
             match rest with
             | [] => js_String x
             | _ :: _ => js_String x +:+ "," +:+ join rest
             end
         end) items
  | QObj _ => "[object Object]"
  end.

(** The application/x-www-form-urlencoded byte serializer: [*-._] and the
    ASCII alphanumerics stand for themselves, a space becomes [+], every
    other byte becomes [%XX] in upper-case hexadecimal. *)
Definition urlencoded_literal (c : ascii) : bool :=
  let n := nat_of_ascii c in
  (((48 <=? n) && (n <=? 57)) || ((65 <=? n) && (n <=? 90))
   || ((97 <=? n) && (n <=? 122))
   || (n =? 42) || (n =? 45) || (n =? 46) || (n =? 95))%nat.

Definition hex_digit (n : nat) : ascii :=
  ascii_of_nat (if (n <? 10)%nat then 48 + n else 55 + n)%nat.

Definition urlencode_byte (c : ascii) : string :=
  if urlencoded_literal c then String c EmptyString
  else if Ascii.eqb c " " then "+"
  else String "%" (String (hex_digit (nat_of_ascii c / 16))
                     (String (hex_digit (nat_of_ascii c mod 16)) EmptyString)).

Fixpoint urlencode (s : string) : string :=
  match s with
  | EmptyString => EmptyString
  | String c rest => urlencode_byte c +:+ urlencode rest
  end.

(** The serializer: [name=value] pairs joined by [&]. *)
Fixpoint urlencoded_serialize (pairs : list (string * string)) : string :=
  match pairs with
  | [] => EmptyString
  | (k, v) :: rest =>
      match rest with
      | [] => urlencode k +:+ "=" +:+ urlencode v
      | _ :: _ => urlencode k +:+ "=" +:+ urlencode v +:+ "&" +:+ urlencoded_serialize rest
      end
  end.

(** [new URLSearchParams(query)]: one pair per property, in the object's
    enumeration order, the value converted with [String]. *)
Definition URLSearchParams (query : list (string * qval)) : list (string * string) :=
  map (fun kv => (fst kv, js_String (snd kv))) query.

Definition URLSearchParams_toString (query : list (string * qval)) : string :=
  urlencoded_serialize (URLSearchParams query).

(** ** The shared store, upstream calls and responses *)

(** A cache entry, [{ data, timestamp }]. *)
Record entry : Type := Entry { data : json; timestamp : Z }.

(** One call of [fetch(url, { headers: { 'X-API-Key': key, ... } })]. *)
Record upstream_call : Type :=
  UpstreamCall { call_url : string; call_key : option string }.

(** The node-fetch [Response] as far as the handlers use it: [status],
    [ok], and what awaiting [text()] and [json()] gives. *)
Record fetch_response : Type :=
  FetchResponse { status : Z; text : settled string; json_body : settled json }.

Definition ok (r : fetch_response) : bool :=
  (200 <=? status r) && (status r <? 300).

(** What is mutable and shared between handler runs: the module-level
    [cache], and the calls that have reached the upstream so far (the
    call counter of a stubbed upstream), latest first. *)
Record world : Type :=
  World { cache : gmap string entry; fetched : list upstream_call }.

(** What one handler run observes from outside: the clock at the freshness
    check and at the store, and the upstream's answer to a call. *)
Record env : Type :=
  Env { now_check : Z;
        now_store : Z;
        upstream : string -> option string -> settled fetch_response }.

(** What the handler gives to Express: [res.status(s).json(body)];
    [res.json(body)] alone leaves the status at 200. *)
Record response : Type := Response { res_status : Z; res_body : json }.

Record request : Type :=
  Request { req_path : string;                  (* req.path *)
            req_query : list (string * qval);   (* req.query *)
            x_api_key : option string;          (* req.headers['x-api-key'] *)
            originalUrl : string }.             (* req.originalUrl *)

(** ** Handler code as state-passing computations that may throw *)

Inductive completion (A : Type) : Type :=
| Normal (value : A)
| Thrown (message : string).
Arguments Normal {A} value.
Arguments Thrown {A} message.

Definition js (A : Type) : Type := world -> completion A * world.

Definition ret {A} (a : A) : js A := fun w => (Normal a, w).

Definition throw {A} (message : string) : js A := fun w => (Thrown message, w).

Definition bind {A B} (m : js A) (k : A -> js B) : js B :=
  fun w =>
    match m w with
    | (Normal a, w') => k a w'
    | (Thrown message, w') => (Thrown message, w')
    end.

(** [try { body } catch (error) { handler(error.message) }] *)
Definition try_catch {A} (body : js A) (handler : string -> js A) : js A :=
  fun w =>
    match body w with
    | (Normal a, w') => (Normal a, w')
    | (Thrown message, w') => handler message w'
    end.

Declare Scope js_scope.
Delimit Scope js_scope with js.
Notation "x <- m ;; k" := (bind m (fun x => k))
  (at level 100, m at next level, right associativity) : js_scope.
Notation "m ;;; k" := (bind m (fun _ => k))
  (at level 100, right associativity) : js_scope.

(** [await p] *)
Definition await {A} (p : settled A) : js A :=
  match p with
  | Fulfilled a => ret a
  | Rejected message => throw message
  end.

(** [cache.get(key)], [cache.set(key, value)], [cache.clear()], [cache.size] *)
Definition cache_get (key : string) : js (option entry) :=
  fun w => (Normal (cache w !! key), w).

Definition cache_set (key : string) (value : entry) : js unit :=
  fun w => (Normal tt, World (<[key := value]> (cache w)) (fetched w)).

Definition cache_clear : js unit :=
  fun w => (Normal tt, World ∅ (fetched w)).

Definition cache_size : js Z :=
  fun w => (Normal (Z.of_nat (size (cache w))), w).

(** [await fetch(url, { headers: { 'X-API-Key': key, ... } })]: the call
    reaches the upstream, then the promise settles. *)
Definition fetch (e : env) (url : string) (key : option string) : js fetch_response :=
  fun w =>
    let w' := World (cache w) (UpstreamCall url key :: fetched w) in
    match upstream e url key with
    | Fulfilled r => (Normal r, w')
    | Rejected message => (Thrown message, w')
    end.

(** ** Constants and values shared by the variants *)

Definition ODDSENGINE_BASE_URL : string := "https://api.oddsengine.dev".

Definition CACHE_DURATION : Z := 60 * 1000.

(** [Date.now() - cached.timestamp < duration] *)
Definition is_fresh (duration now : Z) (c : entry) : bool :=
  now - timestamp c <? duration.

(** [cached && Date.now() - cached.timestamp < duration]: the entry that
    the condition accepts, if any.  An entry object is always truthy. *)
Definition cache_hit (duration now : Z) (cached : option entry) : option entry :=
  match cached with
  | Some c => if is_fresh duration now c then Some c else None
  | None => None
  end.

(** [{ error: 'api_error', message: errorText, status: response.status }] *)
Definition api_error (errorText : string) (st : Z) : json :=
  JObj [("error", JStr "api_error"); ("message", JStr errorText); ("status", JNum st)].

(** [{ error: 'proxy_error', message: error.message }] *)
Definition proxy_error (message : string) : json :=
  JObj [("error", JStr "proxy_error"); ("message", JStr message)].

(** [`${ODDSENGINE_BASE_URL}${path}${queryString ? '?' + queryString : ''}`] *)
Definition upstream_url (req : request) : string :=
  let path := req_path req in
  let queryString := URLSearchParams_toString (req_query req) in
  ODDSENGINE_BASE_URL +:+ path
    +:+ (if truthy_str queryString then "?" +:+ queryString else EmptyString).

(** [{ message: 'Cache cleared', size: n }] *)
Definition cache_cleared (n : Z) : json :=
  JObj [("message", JStr "Cache cleared"); ("size", JNum n)].

(** ** [railway-proxy-server.js] and [railway-proxy-server-fixed.js] *)

Module Railway.
Local Open Scope js_scope.

(** The body of the 401 answer.  The two files differ in the wording of
    [message] only: [railway-proxy-server.js] ends it with [or env var],
    [railway-proxy-server-fixed.js], taken here, with
    [or ODDSENGINE_API_KEY env var]. *)
Definition missing_api_key : json :=
  JObj [("error", JStr "missing_api_key");
        ("message",
         JStr "API key required via X-API-Key header or ODDSENGINE_API_KEY env var")].

(** The [try] block of [app.get('/v1/*', async (req, res) => { ... })] *)
Definition get_v1_try (API_KEY : option string) (e : env) (req : request) : js response :=
  let url := upstream_url req in
  (* Check cache *)
  let cacheKey := url in
  cached <- cache_get cacheKey ;;
  match cache_hit CACHE_DURATION (now_check e) cached with
  | Some c => ret (Response 200 (data c))
  | None =>
      (* Get API key from header or env *)
      let apiKey := js_or (x_api_key req) API_KEY in
      if negb (truthy apiKey) then ret (Response 401 missing_api_key)
      else
        (* Forward to OddsEngine *)
        response <- fetch e url apiKey ;;
        if negb (ok response) then
          errorText <- await (text response) ;;
          ret (Response (status response) (api_error errorText (status response)))
        else
          data <- await (json_body response) ;;
          (* Cache it *)
          cache_set cacheKey (Entry data (now_store e)) ;;;
          ret (Response 200 data)
  end.

(** The handler: the [try] block and its [catch (error)]. *)
Definition get_v1 (API_KEY : option string) (e : env) (req : request) : js response :=
  try_catch (get_v1_try API_KEY e req)
    (fun message => ret (Response 500 (proxy_error message))).

(** [app.post('/cache/clear', (req, res) => { ... })] *)
Definition post_cache_clear : js response :=
  cache_clear ;;;
  ret (Response 200 (cache_cleared 0)).

End Railway.

(** ** The middleware variant ([cacheMiddleware]) *)

Module Middleware.
Local Open Scope js_scope.

(** [res.json] after the middleware has replaced it:
    [(body) => { cache.set(key, { data: body, timestamp: Date.now() });
                 res.sendResponse(body); }].
    [res.status(s)] returns [res], so [res.status(s).json(body)] runs it
    too. *)
Definition wrapped_json (e : env) (key : string) (st : Z) (body : json) : js response :=
  cache_set key (Entry body (now_store e)) ;;;
  ret (Response st body).

(** The route handler of [app.get('/v1/*', cacheMiddleware(...), ...)],
    reached through [next()], with [res.json] replaced. *)
Definition get_v1_route (API_KEY : option string) (e : env) (key : string)
    (req : request) : js response :=
  try_catch
    (let url := upstream_url req in
     (* Forward request to OddsEngine with API key *)
     response <- fetch e url API_KEY ;;
     if negb (ok response) then
       errorText <- await (text response) ;;
       wrapped_json e key (status response) (api_error errorText (status response))
     else
       data <- await (json_body response) ;;
       wrapped_json e key 200 data)
    (fun message => wrapped_json e key 500 (proxy_error message)).

(** [cacheMiddleware(duration)] followed by the route handler. *)
Definition cacheMiddleware (duration : Z) (next : string -> js response)
    (e : env) (req : request) : js response :=
  let key := originalUrl req in
  cachedResponse <- cache_get key ;;
  match cache_hit duration (now_check e) cachedResponse with
  | Some c => ret (Response 200 (data c))
  | None => next key
  end.

Definition get_v1 (API_KEY : option string) (e : env) (req : request) : js response :=
  cacheMiddleware CACHE_DURATION (fun key => get_v1_route API_KEY e key req) e req.

(** [app.post('/cache/clear', ...)]: answers with [cache.size] read after
    the clear. *)
Definition post_cache_clear : js response :=
  cache_clear ;;;
  n <- cache_size ;;
  ret (Response 200 (cache_cleared n)).

End Middleware.

(** ** [proxy.js]: no cache, the key comes from the header only *)

Module Simple.
Local Open Scope js_scope.

(** [`https://api.oddsengine.dev/${version}/${endpoint}${queryString ? ... }`] *)
Definition upstream_url (version endpoint : string) (query : list (string * qval)) : string :=
  let queryString := URLSearchParams_toString query in
  "https://api.oddsengine.dev/" +:+ version +:+ "/" +:+ endpoint
    +:+ (if truthy_str queryString then "?" +:+ queryString else EmptyString).

(** [Object.keys(data)] on a parsed JSON value, as evaluated for the
    success log line: a [TypeError] when [data] is [null]; every other
    value has keys, which are only logged. *)
Definition Object_keys (data : json) : js unit :=
  match data with
  | JNull => throw "Cannot convert undefined or null to object"
  | _ => ret tt
  end.

(** [res.status(500).json({ error: 'Proxy server error', message: ... })] *)
Definition proxy_server_error (message : string) : response :=
  Response 500 (JObj [("error", JStr "Proxy server error"); ("message", JStr message)]).

(** [app.get('/api/:version/:endpoint', async (req, res) => { ... })];
    [version] and [endpoint] are [req.params], as Express decodes them. *)
Definition get_api (e : env) (version endpoint : string) (req : request) : js response :=
  try_catch
    (let apiKey := x_api_key req in
     if negb (truthy apiKey) then
       ret (Response 401 (JObj [("error", JStr "X-API-Key header required")]))
     else
       let url := upstream_url version endpoint (req_query req) in
       response <- fetch e url apiKey ;;
       if negb (ok response) then
         errorText <- await (text response) ;;
         ret (Response (status response)
                (JObj [("error",
                        JStr ("OddsEngine API returned " +:+ pretty (status response)));
                       ("details", JStr errorText)]))
       else
         data <- await (json_body response) ;;
         Object_keys data ;;;
         ret (Response 200 data))
    (fun message => ret (proxy_server_error message)).

End Simple.

(** ** The Railway handler when a promise may stay pending

    Neither [fetch] nor the body readers are given a timeout, so an awaited
    promise may never settle, and the handler then never answers.  This
    module is the handler of module [Railway] again, statement for
    statement, over promises that may stay pending; on promises that settle
    the two agree (lemma [settling_runs_agree] below). *)

Module Awaiting.

Inductive promise (A : Type) : Type :=
| Settles (s : settled A)
| Pending.
Arguments Settles {A} s.
Arguments Pending {A}.

(** How a piece of handler code ends: it returns, it throws, or it is
    suspended at an [await] for good. *)
Inductive outcome (A : Type) : Type :=
| Returned (value : A)
| Raised (message : string)
| Suspended.
Arguments Returned {A} value.
Arguments Raised {A} message.
Arguments Suspended {A}.

Definition task (A : Type) : Type := world -> outcome A * world.

Definition ret {A} (a : A) : task A := fun w => (Returned a, w).

Definition throw {A} (message : string) : task A := fun w => (Raised message, w).

Definition bind {A B} (m : task A) (k : A -> task B) : task B :=
  fun w =>
    match m w with
    | (Returned a, w') => k a w'
    | (Raised message, w') => (Raised message, w')
    | (Suspended, w') => (Suspended, w')
    end.

(** [try { body } catch (error) { ... }]: a suspended body never reaches
    the [catch]. *)
Definition try_catch {A} (body : task A) (handler : string -> task A) : task A :=
  fun w =>
    match body w with
    | (Returned a, w') => (Returned a, w')
    | (Raised message, w') => handler message w'
    | (Suspended, w') => (Suspended, w')
    end.

Declare Scope task_scope.
Delimit Scope task_scope with task.
Notation "x <- m ;; k" := (bind m (fun x => k))
  (at level 100, m at next level, right associativity) : task_scope.
Notation "m ;;; k" := (bind m (fun _ => k))
  (at level 100, right associativity) : task_scope.
Local Open Scope task_scope.

(** [await p] *)
Definition await {A} (p : promise A) : task A :=
  match p with
  | Settles (Fulfilled a) => ret a
  | Settles (Rejected message) => throw message
  | Pending => fun w => (Suspended, w)
  end.

(** The node-fetch [Response] with body readers that may stay pending. *)
Record fetch_response : Type :=
  FetchResponse { status : Z; text : promise string; json_body : promise json }.

Definition ok (r : fetch_response) : bool :=
  (200 <=? status r) && (status r <? 300).

Record env : Type :=
  Env { now_check : Z;
        now_store : Z;
        upstream : string -> option string -> promise fetch_response }.

Definition cache_get (key : string) : task (option entry) :=
  fun w => (Returned (cache w !! key), w).

Definition cache_set (key : string) (value : entry) : task unit :=
  fun w => (Returned tt, World (<[key := value]> (cache w)) (fetched w)).

(** [await fetch(url, { headers: { 'X-API-Key': key, ... } })] *)
Definition fetch (e : env) (url : string) (key : option string) : task fetch_response :=
  fun w => await (upstream e url key) (World (cache w) (UpstreamCall url key :: fetched w)).

(** The [try] block of [app.get('/v1/*', async (req, res) => { ... })] *)
Definition get_v1_try (API_KEY : option string) (e : env) (req : request)
    : task response :=
  let url := upstream_url req in
  (* Check cache *)
  let cacheKey := url in
  cached <- cache_get cacheKey ;;
  match cache_hit CACHE_DURATION (now_check e) cached with
  | Some c => ret (Response 200 (data c))
  | None =>
      (* Get API key from header or env *)
      let apiKey := js_or (x_api_key req) API_KEY in
      if negb (truthy apiKey) then ret (Response 401 Railway.missing_api_key)
      else
        (* Forward to OddsEngine *)
        response <- fetch e url apiKey ;;
        if negb (ok response) then
          errorText <- await (text response) ;;
          ret (Response (status response) (api_error errorText (status response)))
        else
          data <- await (json_body response) ;;
          (* Cache it *)
          cache_set cacheKey (Entry data (now_store e)) ;;;
          ret (Response 200 data)
  end.

(** The handler: the [try] block and its [catch (error)]. *)
Definition get_v1 (API_KEY : option string) (e : env) (req : request) : task response :=
  try_catch (get_v1_try API_KEY e req)
    (fun message => ret (Response 500 (proxy_error message))).

(** The upstream never answers the call. *)
Definition env_silent (now : Z) : env := Env now now (fun _ _ => Pending).

End Awaiting.

(** A run in which every promise settles, seen as a run over promises that
    may stay pending. *)
Definition settled_response (r : fetch_response) : Awaiting.fetch_response :=
  Awaiting.FetchResponse (status r)
    (Awaiting.Settles (text r)) (Awaiting.Settles (json_body r)).

Definition settled_env (e : env) : Awaiting.env :=
  Awaiting.Env (now_check e) (now_store e)
    (fun url key =>
       Awaiting.Settles match upstream e url key with
                        | Fulfilled r => Fulfilled (settled_response r)
                        | Rejected message => Rejected message
                        end).

Definition settled_outcome {A} (c : completion A) : Awaiting.outcome A :=
  match c with
  | Normal a => Awaiting.Returned a
  | Thrown message => Awaiting.Raised message
  end.

(** The run of the Railway handler for [req] in [w] fetches [d] and stores
    it: no fresh entry for the derived URL, a credential, an upstream answer
    with a success status, and a body that parses to [d]. *)
Definition stored_fetch (API_KEY : option string) (e : env) (req : request) (w : world)
    (d : json) : Prop :=
  cache_hit CACHE_DURATION (now_check e) (cache w !! upstream_url req) = None
  /\ truthy (js_or (x_api_key req) API_KEY) = true
  /\ exists r : fetch_response,
       upstream e (upstream_url req) (js_or (x_api_key req) API_KEY) = Fulfilled r
       /\ ok r = true /\ json_body r = Fulfilled d.

(** ** Reading a serialized query back *)

(** Whether the byte [d] occurs in [s]. *)
Fixpoint occurs (d : ascii) (s : string) : bool :=
  match s with
  | EmptyString => false
  | String c rest => Ascii.eqb c d || occurs d rest
  end.

Definition hex_value (c : ascii) : nat :=
  let n := nat_of_ascii c in
  (if n <? 58 then n - 48 else n - 55)%nat.

(** The first byte that a url-encoded string stands for, and what follows
    it. *)
Definition urldecode_first (s : string) : option (ascii * string) :=
  match s with
  | EmptyString => None
  | String c rest =>
      if Ascii.eqb c "+" then Some (" "%char, rest)
      else if Ascii.eqb c "%" then
        match rest with
        | String h (String l rest') =>
            Some (ascii_of_nat (16 * hex_value h + hex_value l), rest')
        | _ => None
        end
      else Some (c, rest)
  end.

(** A query object all of whose values are plain strings. *)
Definition flat_query (query : list (string * qval)) : bool :=
  forallb (fun kv => match snd kv with QStr _ => true | _ => false end) query.

(** ** Reading an answer *)

(** [body[name]] of a JSON object. *)
Fixpoint field_of (name : string) (fields : list (string * json)) : option json :=
  match fields with
  | [] => None
  | (k, v) :: rest => if String.eqb k name then Some v else field_of name rest
  end.

Definition json_field (name : string) (body : json) : option json :=
  match body with
  | JObj fields => field_of name fields
  | _ => None
  end.

(** The [error] kind of an error envelope. *)
Definition error_kind (r : response) : option json := json_field "error" (res_body r).

(** ** Sample requests, upstream behaviours and stores *)

Module Sample.

Definition dquote : string := String "034"%char EmptyString.

(** The text [{"retry_after":5}] *)
Definition retry_after_text : string :=
  "{" +:+ dquote +:+ "retry_after" +:+ dquote +:+ ":5}".

Definition payload : json := JObj [("events", JArr [JStr "LAL-BOS"])].

Definition url_events : string := "https://api.oddsengine.dev/v1/events?league=NBA".

(** [GET /v1/events?league=NBA], without and with an [X-API-Key] header *)
Definition req_events (key : option string) : request :=
  Request "/v1/events" [("league", QStr "NBA")] key "/v1/events?league=NBA".

(** [GET /v1/odds?id=1&id=2] and [GET /v1/odds?id=1%2C2] *)
Definition req_odds_twice : request :=
  Request "/v1/odds" [("id", QArr [QStr "1"; QStr "2"])] None "/v1/odds?id=1&id=2".

Definition req_odds_comma : request :=
  Request "/v1/odds" [("id", QStr "1,2")] None "/v1/odds?id=1%2C2".

(** A store holding [payload] for [url_events], written at time [t]. *)
Definition world_cached (t : Z) : world :=
  World {[ url_events := Entry payload t ]} [].

Definition world_empty : world := World ∅ [].

(** An upstream that answers every call with [r], or refuses the
    connection. *)
Definition env_answer (now : Z) (r : fetch_response) : env :=
  Env now now (fun _ _ => Fulfilled r).

Definition env_down (now : Z) : env :=
  Env now now (fun _ _ => Rejected "connect ECONNREFUSED").

Definition answer_ok : fetch_response :=
  FetchResponse 200 (Fulfilled "{...}") (Fulfilled payload).

Definition answer_429 : fetch_response :=
  FetchResponse 429 (Fulfilled retry_after_text)
    (Fulfilled (JObj [("retry_after", JNum 5)])).

Definition answer_429_unreadable : fetch_response :=
  FetchResponse 429 (Rejected "Premature close") (Rejected "Premature close").

Definition answer_malformed : fetch_response :=
  FetchResponse 200 (Fulfilled "<html>")
    (Rejected "Unexpected token < in JSON at position 0").

End Sample.

(** ** The status routes and the route table *)

Module Health.
Local Open Scope js_scope.

(** [process.env.PORT || fallback]: the environment's string when it is
    set and not empty, the number otherwise. *)
Definition PORT (env_PORT : option string) (fallback : Z) : json :=
  match env_PORT with
  | Some s => if truthy_str s then JStr s else JNum fallback
  | None => JNum fallback
  end.

(** [app.get('/health', ...)] of [railway-proxy-server.js].  [iso] is what
    [new Date().toISOString()] gives when the route runs. *)
Definition original (env_PORT : option string) (iso : string) : js response :=
  n <- cache_size ;;
  ret (Response 200
         (JObj [("status", JStr "healthy"); ("timestamp", JStr iso);
                ("cache_size", JNum n); ("port", PORT env_PORT 3001)])).

(** [app.get('/health', ...)] of [railway-proxy-server-fixed.js], with
    [api_key_configured: !!API_KEY]. *)
Definition fixed (env_PORT API_KEY : option string) (iso : string) : js response :=
  n <- cache_size ;;
  ret (Response 200
         (JObj [("status", JStr "healthy"); ("timestamp", JStr iso);
                ("cache_size", JNum n); ("port", PORT env_PORT 3001);
                ("api_key_configured", JBool (truthy API_KEY))])).

(** [app.get('/health', ...)] of the middleware variant. *)
Definition middleware (iso : string) : js response :=
  n <- cache_size ;;
  ret (Response 200
         (JObj [("status", JStr "healthy"); ("timestamp", JStr iso);
                ("cache_size", JNum n)])).

End Health.

(** The routes of [railway-proxy-server-fixed.js] that touch the store, and
    a server that handles inbound requests one after the other. *)
Inductive inbound : Type :=
| GET_health (iso : string)
| POST_cache_clear
| GET_v1 (e : env) (req : request).

Definition route (env_PORT API_KEY : option string) (i : inbound) : js response :=
  match i with
  | GET_health iso => Health.fixed env_PORT API_KEY iso
  | POST_cache_clear => Railway.post_cache_clear
  | GET_v1 e req => Railway.get_v1 API_KEY e req
  end.

Fixpoint serve (env_PORT API_KEY : option string) (trace : list inbound) (w : world)
    : list (completion response) * world :=
  match trace with
  | [] => ([], w)
  | i :: rest =>
      let (answer, w1) := route env_PORT API_KEY i w in
      let (answers, w2) := serve env_PORT API_KEY rest w1 in
      (answer :: answers, w2)
  end.

(** [body[name]] of the answer of a run, if the run answered. *)
Definition answer_field (name : string) (run : completion response * world)
    : option json :=
  match fst run with
  | Normal r => json_field name (res_body r)
  | Thrown _ => None
  end.

(** ** More sample traffic *)

Module Traffic.

(** [GET /v1/events?league=%4EBA]: the request of [Sample.req_events]
    spelled differently; the path and the parsed query are the same. *)
Definition req_events_spelled (key : option string) : request :=
  Request "/v1/events" [("league", QStr "NBA")] key "/v1/events?league=%4EBA".

(** [GET /v1/leagues], no query string. *)
Definition req_leagues (key : option string) : request :=
  Request "/v1/leagues" [] key "/v1/leagues".

Definition answer_created : fetch_response :=
  FetchResponse 201 (Fulfilled "{...}") (Fulfilled Sample.payload).

End Traffic.

(** * Properties *)

(** ** Running the handlers *)

Section RailwayRun.
Context (API_KEY : option string) (e : env) (req : request) (w : world).

Let url := upstream_url req.
Let apiKey := js_or (x_api_key req) API_KEY.
Let called := World (cache w) (UpstreamCall url apiKey :: fetched w).

(** A fresh entry for the key: answered from the store, the world is as it
    was. *)
Lemma get_v1_hit (c : entry) :
  cache_hit CACHE_DURATION (now_check e) (cache w !! url) = Some c ->
  Railway.get_v1 API_KEY e req w = (Normal (Response 200 (data c)), w).
Proof.
  intros Hhit.
  unfold Railway.get_v1, try_catch, Railway.get_v1_try, bind, cache_get; cbn.
  fold url. rewrite Hhit. reflexivity.
Qed.

(** No fresh entry and no key: 401, the world is as it was. *)
Lemma get_v1_unauthorised :
  cache_hit CACHE_DURATION (now_check e) (cache w !! url) = None ->
  truthy apiKey = false ->
  Railway.get_v1 API_KEY e req w
  = (Normal (Response 401 Railway.missing_api_key), w).
Proof.
  intros Hmiss Hkey.
  unfold Railway.get_v1, try_catch, Railway.get_v1_try, bind, cache_get; cbn.
  fold url apiKey. rewrite Hmiss, Hkey. reflexivity.
Qed.

(** No fresh entry and a key: one upstream call, and the answer follows
    from how the call and the reading of its body settle. *)
Lemma get_v1_forward :
  cache_hit CACHE_DURATION (now_check e) (cache w !! url) = None ->
  truthy apiKey = true ->
  Railway.get_v1 API_KEY e req w =
  match upstream e url apiKey with
  | Rejected message => (Normal (Response 500 (proxy_error message)), called)
  | Fulfilled r =>
      if ok r then
        match json_body r with
        | Fulfilled d =>
            (Normal (Response 200 d),
             World (<[url := Entry d (now_store e)]> (cache w)) (fetched called))
        | Rejected message => (Normal (Response 500 (proxy_error message)), called)
        end
      else
        match text r with
        | Fulfilled t => (Normal (Response (status r) (api_error t (status r))), called)
        | Rejected message => (Normal (Response 500 (proxy_error message)), called)
        end
  end.
Proof.
  intros Hmiss Hkey.
  unfold Railway.get_v1, try_catch, Railway.get_v1_try, bind, cache_get, fetch; cbn.
  fold url apiKey. rewrite Hmiss, Hkey. cbn.
  destruct (upstream e url apiKey) as [r | message]; [| reflexivity].
  destruct (ok r); cbn.
  - destruct (json_body r); reflexivity.
  - destruct (text r); reflexivity.
Qed.

End RailwayRun.

Lemma cache_hit_Some duration now cached c :
  cache_hit duration now cached = Some c <->
  cached = Some c /\ now - timestamp c < duration.
Proof.
  unfold cache_hit, is_fresh. destruct cached as [c' |].
  - destruct (Z.ltb_spec (now - timestamp c') duration); split.
    + intros [= ->]. auto.
    + intros [[= ->] _]. reflexivity.
    + discriminate.
    + intros [[= ->] ?]. lia.
  - split; [discriminate | intros [[=] _]].
Qed.

Lemma cache_hit_None duration now cached :
  cache_hit duration now cached = None <->
  forall c, cached = Some c -> duration <= now - timestamp c.
Proof.
  unfold cache_hit, is_fresh. destruct cached as [c' |].
  - destruct (Z.ltb_spec (now - timestamp c') duration); split.
    + discriminate.
    + intros H0. specialize (H0 c' eq_refl). lia.
    + intros _ c [= <-]. assumption.
    + reflexivity.
  - split; [intros _ c; discriminate | reflexivity].
Qed.

(** The three ways through the handler. *)
Ltac get_v1_cases K e req w :=
  let c := fresh "c" in
  let Hlookup := fresh "Hlookup" in
  let Hkey := fresh "Hkey" in
  destruct (cache_hit CACHE_DURATION (now_check e) (cache w !! upstream_url req))
    as [c |] eqn:Hlookup;
  [ rewrite (get_v1_hit K e req w c Hlookup)
  | destruct (truthy (js_or (x_api_key req) K)) eqn:Hkey;
    [ rewrite (get_v1_forward K e req w Hlookup Hkey)
    | rewrite (get_v1_unauthorised K e req w Hlookup Hkey) ] ].

(** ** Cache hits *)

(** A successful miss followed by the same request within the time to live
    of what it stored: the second answer is the first one, and the upstream
    is not called again. *)
Lemma miss_then_hit (API_KEY : option string) (e e' : env) (req : request)
    (w : world) (r : fetch_response) (d : json) :
  cache_hit CACHE_DURATION (now_check e) (cache w !! upstream_url req) = None ->
  truthy (js_or (x_api_key req) API_KEY) = true ->
  upstream e (upstream_url req) (js_or (x_api_key req) API_KEY) = Fulfilled r ->
  ok r = true ->
  json_body r = Fulfilled d ->
  now_check e' - now_store e < CACHE_DURATION ->
  let first := Railway.get_v1 API_KEY e req w in
  let second := Railway.get_v1 API_KEY e' req (snd first) in
  fst first = Normal (Response 200 d)
  /\ fst second = fst first
  /\ fetched (snd second) = fetched (snd first).
Proof.
  intros Hmiss Hkey Hup Hok Hjson Httl first second.
  assert (Hfirst : first
    = (Normal (Response 200 d),
       World (<[upstream_url req := Entry d (now_store e)]> (cache w))
             (UpstreamCall (upstream_url req) (js_or (x_api_key req) API_KEY)
                :: fetched w))).
  { unfold first. rewrite get_v1_forward by assumption.
    rewrite Hup, Hok, Hjson. reflexivity. }
  assert (Hsecond : second = (Normal (Response 200 d), snd first)).
  { unfold second. rewrite Hfirst; cbn [snd].
    apply (get_v1_hit _ _ _ _ (Entry d (now_store e))).
    apply cache_hit_Some. cbn. split; [apply lookup_insert_eq | assumption]. }
  rewrite Hsecond, Hfirst. cbn. auto.
Qed.

(** C1. A request whose cache key holds an entry stored less than
    [CACHE_DURATION] = 60000 ms before the freshness check is answered with
    HTTP 200 and the stored payload, and the upstream is not called (the
    world, call log included, is as before).  The same request again, while
    the entry is still younger than 60000 ms, gets the same answer, again
    without an upstream call. *)
Theorem cached_request_served_from_store (API_KEY : option string) (e : env)
    (req : request) (w : world) (c : entry) :
  cache w !! upstream_url req = Some c ->
  now_check e - timestamp c < 60000 ->
  let first := Railway.get_v1 API_KEY e req w in
  first = (Normal (Response 200 (data c)), w)
  /\ fetched (snd first) = fetched w
  /\ forall e' : env,
       now_check e' - timestamp c < 60000 ->
       let second := Railway.get_v1 API_KEY e' req (snd first) in
       fst second = fst first /\ fetched (snd second) = fetched w.
Proof.
  intros Hc Hfresh first.
  assert (Hfirst : first = (Normal (Response 200 (data c)), w)).
  { apply get_v1_hit, cache_hit_Some. auto. }
  rewrite Hfirst. cbn [fst snd].
  split; [reflexivity |]. split; [reflexivity |].
  intros e' Hfresh'.
  rewrite (get_v1_hit API_KEY e' req w c); [cbn; auto |].
  apply cache_hit_Some. auto.
Qed.

Lemma cached_request_served_from_store_witness :
  cache (Sample.world_cached 1000) !! upstream_url (Sample.req_events None)
  = Some (Entry Sample.payload 1000)
  /\ now_check (Sample.env_down 60999) - 1000 < 60000
  /\ Railway.get_v1 None (Sample.env_down 60999) (Sample.req_events None)
       (Sample.world_cached 1000)
     = (Normal (Response 200 Sample.payload), Sample.world_cached 1000).
Proof.
  assert (H1 : cache (Sample.world_cached 1000) !! upstream_url (Sample.req_events None)
               = Some (Entry Sample.payload 1000)) by reflexivity.
  assert (H2 : now_check (Sample.env_down 60999) - 1000 < 60000) by (simpl; lia).
  split; [exact H1 |]. split; [exact H2 |].
  exact (proj1 (cached_request_served_from_store None (Sample.env_down 60999)
                  (Sample.req_events None) (Sample.world_cached 1000)
                  (Entry Sample.payload 1000) H1 H2)).
Defined.

(** C10. With a fresh entry for the key, the answer does not depend on the
    [X-API-Key] header (nor on the configured key): two requests with the
    same path and query get the same HTTP 200 answer carrying the stored
    payload, also when one of them has no header and no key is configured;
    the answer is never the 401 of the credential check, and no upstream
    call is made. *)
Theorem cached_answer_ignores_credentials (API_KEY : option string) (e : env)
    (req1 req2 : request) (w : world) (c : entry) :
  req_path req1 = req_path req2 ->
  req_query req1 = req_query req2 ->
  cache w !! upstream_url req1 = Some c ->
  now_check e - timestamp c < CACHE_DURATION ->
  Railway.get_v1 API_KEY e req1 w = (Normal (Response 200 (data c)), w)
  /\ Railway.get_v1 API_KEY e req2 w = Railway.get_v1 API_KEY e req1 w
  /\ Railway.get_v1 None e req2 w = Railway.get_v1 API_KEY e req1 w.
Proof.
  intros Hpath Hquery Hc Hfresh.
  assert (Hurl : upstream_url req2 = upstream_url req1).
  { unfold upstream_url. rewrite Hpath, Hquery. reflexivity. }
  assert (Hhit : forall K r, upstream_url r = upstream_url req1 ->
            Railway.get_v1 K e r w = (Normal (Response 200 (data c)), w)).
  { intros K r Hr. apply get_v1_hit, cache_hit_Some. rewrite Hr. auto. }
  rewrite !Hhit by auto. auto.
Qed.

Lemma cached_answer_ignores_credentials_witness :
  cache (Sample.world_cached 1000) !! upstream_url (Sample.req_events (Some "client-key"))
  = Some (Entry Sample.payload 1000)
  /\ now_check (Sample.env_down 5000) - 1000 < CACHE_DURATION
  /\ Railway.get_v1 None (Sample.env_down 5000) (Sample.req_events None)
       (Sample.world_cached 1000)
     = Railway.get_v1 (Some "env-key") (Sample.env_down 5000)
         (Sample.req_events (Some "client-key")) (Sample.world_cached 1000).
Proof.
  assert (H1 : cache (Sample.world_cached 1000)
                 !! upstream_url (Sample.req_events (Some "client-key"))
               = Some (Entry Sample.payload 1000)) by reflexivity.
  assert (H2 : now_check (Sample.env_down 5000) - 1000 < CACHE_DURATION)
    by (vm_compute; reflexivity).
  split; [exact H1 |]. split; [exact H2 |].
  exact (proj2 (proj2 (cached_answer_ignores_credentials (Some "env-key")
                         (Sample.env_down 5000)
                         (Sample.req_events (Some "client-key")) (Sample.req_events None)
                         (Sample.world_cached 1000) (Entry Sample.payload 1000)
                         eq_refl eq_refl H1 H2))).
Defined.

(** ** The credential check *)




(** [proxy.js] has no store and no configured key: without a non-empty
    header the answer is 401, with its own wording of the error, and the
    upstream is not called. *)
Lemma simple_missing_header (e : env) (version endpoint : string) (req : request)
    (w : world) :
  truthy (x_api_key req) = false ->
  Simple.get_api e version endpoint req w
  = (Normal (Response 401 (JObj [("error", JStr "X-API-Key header required")])), w).
Proof.
  intros Hkey. unfold Simple.get_api, try_catch; cbn. rewrite Hkey. reflexivity.
Qed.

(** ** What changes the store *)

(** In [railway-proxy-server.js] and [railway-proxy-server-fixed.js] a run
    of the handler leaves the store as it was, unless the upstream answered
    with a success status and a body that parses; then it writes exactly the
    entry for the request's key, stamped with the clock at the store. *)
Lemma railway_store_only_on_success (API_KEY : option string) (e : env)
    (req : request) (w : world) :
  cache (snd (Railway.get_v1 API_KEY e req w)) = cache w
  \/ exists (r : fetch_response) (d : json),
       upstream e (upstream_url req) (js_or (x_api_key req) API_KEY) = Fulfilled r
       /\ ok r = true /\ json_body r = Fulfilled d
       /\ fst (Railway.get_v1 API_KEY e req w) = Normal (Response 200 d)
       /\ cache (snd (Railway.get_v1 API_KEY e req w))
          = <[upstream_url req := Entry d (now_store e)]> (cache w).
Proof.
  get_v1_cases API_KEY e req w; [left; reflexivity | | left; reflexivity].
  destruct (upstream e (upstream_url req) (js_or (x_api_key req) API_KEY))
    as [r | message] eqn:Hup; [| left; reflexivity].
  destruct (ok r) eqn:Hok.
  - destruct (json_body r) as [d | message] eqn:Hjson; [| left; reflexivity].
    right. exists r, d. cbn. auto.
  - destruct (text r); left; reflexivity.
Qed.

(** The answers that are not a success leave the store untouched there. *)
Lemma railway_store_unchanged_on_error (API_KEY : option string) (e : env)
    (req : request) (w : world) (resp : response) (w' : world) :
  Railway.get_v1 API_KEY e req w = (Normal resp, w') ->
  res_status resp <> 200 ->
  cache w' = cache w.
Proof.
  intros Hrun Hstatus.
  destruct (railway_store_only_on_success API_KEY e req w) as [H | (r & d & _ & _ & _ & H & _)];
    rewrite Hrun in H; cbn in H.
  - exact H.
  - injection H as ->. contradiction Hstatus. reflexivity.
Qed.

(** A run never removes an entry, and only touches the request's key. *)
Lemma railway_entries_stay (API_KEY : option string) (e : env) (req : request)
    (w : world) (k : string) (c : entry) :
  cache w !! k = Some c ->
  is_Some (cache (snd (Railway.get_v1 API_KEY e req w)) !! k)
  /\ (k <> upstream_url req ->
      cache (snd (Railway.get_v1 API_KEY e req w)) !! k = Some c).
Proof.
  intros Hk.
  destruct (railway_store_only_on_success API_KEY e req w)
    as [H | (r & d & _ & _ & _ & _ & H)]; rewrite H.
  - rewrite Hk. split; [eexists; reflexivity | reflexivity].
  - split.
    + destruct (decide (upstream_url req = k)) as [-> | Hne].
      * rewrite lookup_insert_eq. eexists; reflexivity.
      * rewrite lookup_insert_ne by assumption. rewrite Hk. eexists; reflexivity.
    + intros Hne. rewrite lookup_insert_ne by auto. exact Hk.
Qed.

(** C3: the middleware variant stores an error answer.  With an empty
    store and an upstream that answers 429 with the text
    [{"retry_after":5}], [GET /v1/events?league=NBA] is answered 429 with
    the [api_error] envelope, and the envelope is written to the store under
    the request's [originalUrl]; the same request one second later, with
    the upstream healthy again, is answered HTTP 200 with that envelope from
    the store, without an upstream call. *)
Theorem middleware_stores_error_answer :
  Middleware.get_v1 (Some "env-key") (Sample.env_answer 1000 Sample.answer_429)
    (Sample.req_events None) Sample.world_empty
  = (Normal (Response 429 (api_error Sample.retry_after_text 429)),
     World {[ "/v1/events?league=NBA"
              := Entry (api_error Sample.retry_after_text 429) 1000 ]}
       [UpstreamCall Sample.url_events (Some "env-key")])
  /\ cache (snd (Middleware.get_v1 (Some "env-key")
                   (Sample.env_answer 1000 Sample.answer_429)
                   (Sample.req_events None) Sample.world_empty))
     <> cache Sample.world_empty
  /\ Middleware.get_v1 (Some "env-key") (Sample.env_answer 2000 Sample.answer_ok)
       (Sample.req_events None)
       (snd (Middleware.get_v1 (Some "env-key")
               (Sample.env_answer 1000 Sample.answer_429)
               (Sample.req_events None) Sample.world_empty))
     = (Normal (Response 200 (api_error Sample.retry_after_text 429)),
        snd (Middleware.get_v1 (Some "env-key")
               (Sample.env_answer 1000 Sample.answer_429)
               (Sample.req_events None) Sample.world_empty)).
Proof.
  split; [vm_compute; reflexivity |]. split; [| vm_compute; reflexivity].
  intros H.
  apply (f_equal (fun m : gmap string entry => m !! "/v1/events?league=NBA"%string)) in H.
  vm_compute in H. discriminate H.
Qed.

(** On a miss the middleware variant stores whatever answer the route
    sends, whatever its status. *)
Lemma middleware_stores_every_answer (API_KEY : option string) (e : env)
    (req : request) (w : world) :
  cache_hit CACHE_DURATION (now_check e) (cache w !! originalUrl req) = None ->
  exists resp : response,
    fst (Middleware.get_v1 API_KEY e req w) = Normal resp
    /\ cache (snd (Middleware.get_v1 API_KEY e req w))
       = <[originalUrl req := Entry (res_body resp) (now_store e)]> (cache w).
Proof.
  intros Hmiss.
  unfold Middleware.get_v1, Middleware.cacheMiddleware, bind, cache_get; cbn.
  rewrite Hmiss.
  unfold Middleware.get_v1_route, try_catch, bind, fetch, Middleware.wrapped_json,
    cache_set; cbn.
  destruct (upstream e (upstream_url req) API_KEY) as [r | message]; cbn.
  - destruct (ok r); cbn.
    + destruct (json_body r); cbn; eexists; split; reflexivity.
    + destruct (text r); cbn; eexists; split; reflexivity.
  - eexists; split; reflexivity.
Qed.

(** What a run of the Railway handler does to the store, exactly: a
    stored fetch writes its entry, every other run changes nothing. *)
Lemma railway_store_exact (API_KEY : option string) (e : env) (req : request)
    (w : world) :
  (forall d : json,
     stored_fetch API_KEY e req w d ->
     fst (Railway.get_v1 API_KEY e req w) = Normal (Response 200 d)
     /\ cache (snd (Railway.get_v1 API_KEY e req w))
        = <[upstream_url req := Entry d (now_store e)]> (cache w))
  /\ ((forall d : json, ~ stored_fetch API_KEY e req w d) ->
      cache (snd (Railway.get_v1 API_KEY e req w)) = cache w).
Proof.
  split.
  - intros d (Hmiss & Hkey & r & Hup & Hok & Hjson).
    rewrite (get_v1_forward API_KEY e req w Hmiss Hkey), Hup, Hok, Hjson.
    split; reflexivity.
  - intros Hnone.
    get_v1_cases API_KEY e req w; [reflexivity | | reflexivity].
    destruct (upstream e (upstream_url req) (js_or (x_api_key req) API_KEY))
      as [r | message] eqn:Hup; [| reflexivity].
    destruct (ok r) eqn:Hok; [| destruct (text r); reflexivity].
    destruct (json_body r) as [d | message] eqn:Hjson; [| reflexivity].
    exfalso. apply (Hnone d). split; [exact Hlookup |]. split; [exact Hkey |].
    exists r. auto.
Qed.

(** ** Freshness *)

(** C4, as stated, fails: [GET /v1/events?league=NBA] without a header and
    with no configured key is served from the store at time 2000, and
    repeated 60001 ms later it finds the entry stale and is refused with
    401; the second request triggers no upstream call. *)
Lemma repeat_after_ttl_without_key_no_call :
  fst (Railway.get_v1 None (Sample.env_answer 2000 Sample.answer_ok)
         (Sample.req_events None) (Sample.world_cached 1000))
  = Normal (Response 200 Sample.payload)
  /\ Railway.get_v1 None (Sample.env_answer 62001 Sample.answer_ok)
       (Sample.req_events None)
       (snd (Railway.get_v1 None (Sample.env_answer 2000 Sample.answer_ok)
               (Sample.req_events None) (Sample.world_cached 1000)))
     = (Normal (Response 401 Railway.missing_api_key), Sample.world_cached 1000)
  /\ fetched (Sample.world_cached 1000) = [].
Proof. repeat split; vm_compute; reflexivity. Qed.

(** C4, amended.  An entry is fresh exactly when the clock minus its
    timestamp is below 60000.  A run of the handler removes no entry and
    changes none under another key.  When the entry for the request's key
    is stale, the run calls the upstream, once, provided the header or the
    configured key gives a credential; without one it answers 401 and calls
    nothing.  The stale entry is replaced only by a fetch that succeeds, and
    then by the fetched payload stamped with the clock at the store; in
    every other run it stays in the store as it was, with the rest of the
    store. *)
Theorem stale_entry_refetched (API_KEY : option string) (e : env) (req : request)
    (w : world) (c : entry) :
  cache w !! upstream_url req = Some c ->
  (is_fresh CACHE_DURATION (now_check e) c = true
   <-> now_check e - timestamp c < 60000)
  /\ (forall (k : string) (c' : entry),
        cache w !! k = Some c' ->
        is_Some (cache (snd (Railway.get_v1 API_KEY e req w)) !! k)
        /\ (k <> upstream_url req ->
            cache (snd (Railway.get_v1 API_KEY e req w)) !! k = Some c'))
  /\ (60000 <= now_check e - timestamp c ->
      (truthy (js_or (x_api_key req) API_KEY) = true ->
       fetched (snd (Railway.get_v1 API_KEY e req w))
       = UpstreamCall (upstream_url req) (js_or (x_api_key req) API_KEY) :: fetched w)
      /\ (truthy (js_or (x_api_key req) API_KEY) = false ->
          Railway.get_v1 API_KEY e req w
          = (Normal (Response 401 Railway.missing_api_key), w))
      /\ (forall d : json,
            stored_fetch API_KEY e req w d ->
            cache (snd (Railway.get_v1 API_KEY e req w)) !! upstream_url req
            = Some (Entry d (now_store e)))
      /\ ((forall d : json, ~ stored_fetch API_KEY e req w d) ->
          cache (snd (Railway.get_v1 API_KEY e req w)) !! upstream_url req = Some c
          /\ cache (snd (Railway.get_v1 API_KEY e req w)) = cache w)).
Proof.
  intros Hc. split; [| split].
  - unfold is_fresh. apply Z.ltb_lt.
  - intros k c' Hk. apply railway_entries_stay. exact Hk.
  - intros Hstale.
    assert (Hmiss : cache_hit CACHE_DURATION (now_check e) (cache w !! upstream_url req)
                    = None).
    { apply cache_hit_None. intros c0. rewrite Hc. intros [= <-]. exact Hstale. }
    destruct (railway_store_exact API_KEY e req w) as [Hstored Hkept].
    split; [| split; [| split]].
    + intros Hkey. rewrite (get_v1_forward API_KEY e req w Hmiss Hkey).
      destruct (upstream e (upstream_url req) (js_or (x_api_key req) API_KEY))
        as [r | message]; [| reflexivity].
      destruct (ok r); [destruct (json_body r) | destruct (text r)]; reflexivity.
    + intros Hkey. apply get_v1_unauthorised; assumption.
    + intros d Hd. destruct (Hstored d Hd) as [_ ->]. apply lookup_insert_eq.
    + intros Hnone. rewrite (Hkept Hnone). auto.
Qed.

Lemma stale_entry_refetched_witness :
  cache (Sample.world_cached 1000) !! upstream_url (Sample.req_events (Some "client-key"))
  = Some (Entry Sample.payload 1000)
  /\ 60000 <= now_check (Sample.env_answer 61000 Sample.answer_ok) - 1000
  /\ fetched (snd (Railway.get_v1 None (Sample.env_answer 61000 Sample.answer_ok)
                     (Sample.req_events (Some "client-key")) (Sample.world_cached 1000)))
     = [UpstreamCall Sample.url_events (Some "client-key")].
Proof.
  assert (H1 : cache (Sample.world_cached 1000)
                 !! upstream_url (Sample.req_events (Some "client-key"))
               = Some (Entry Sample.payload 1000)) by reflexivity.
  assert (H2 : 60000 <= now_check (Sample.env_answer 61000 Sample.answer_ok) - 1000)
    by (simpl; lia).
  split; [exact H1 |]. split; [exact H2 |].
  exact (proj1 (proj2 (proj2 (stale_entry_refetched None
                                (Sample.env_answer 61000 Sample.answer_ok)
                                (Sample.req_events (Some "client-key"))
                                (Sample.world_cached 1000)
                                (Entry Sample.payload 1000) H1))
                  H2)
           eq_refl).
Defined.

(** ** Upstream errors *)

(** C5, as stated, fails on a read failure: when the upstream answers 429
    and reading its body fails, the handler answers HTTP 500 with a
    [proxy_error], not HTTP 429 with an [api_error] and an empty message. *)
Lemma unreadable_error_body_is_proxy_error :
  Railway.get_v1 None (Sample.env_answer 1000 Sample.answer_429_unreadable)
    (Sample.req_events (Some "client-key")) Sample.world_empty
  = (Normal (Response 500 (proxy_error "Premature close")),
     World ∅ [UpstreamCall Sample.url_events (Some "client-key")])
  /\ Response 500 (proxy_error "Premature close")
     <> Response 429 (api_error EmptyString 429).
Proof. split; [vm_compute; reflexivity | discriminate]. Qed.

(** C5, amended.  When the upstream answers a call with a non-success
    status, the handler makes no further call, leaves the store unchanged,
    and, if the body text could be read, answers with the upstream status
    and the envelope of kind [api_error] whose message is that text and
    whose status field is the upstream status; if reading the body fails,
    it answers HTTP 500 with a [proxy_error] carrying the failure's
    message. *)
Theorem upstream_error_relayed (API_KEY : option string) (e : env) (req : request)
    (w : world) (r : fetch_response) :
  cache_hit CACHE_DURATION (now_check e) (cache w !! upstream_url req) = None ->
  truthy (js_or (x_api_key req) API_KEY) = true ->
  upstream e (upstream_url req) (js_or (x_api_key req) API_KEY) = Fulfilled r ->
  ok r = false ->
  snd (Railway.get_v1 API_KEY e req w)
  = World (cache w)
      (UpstreamCall (upstream_url req) (js_or (x_api_key req) API_KEY) :: fetched w)
  /\ (forall t : string,
        text r = Fulfilled t ->
        fst (Railway.get_v1 API_KEY e req w)
        = Normal (Response (status r) (api_error t (status r)))
        /\ error_kind (Response (status r) (api_error t (status r)))
           = Some (JStr "api_error")
        /\ json_field "message" (api_error t (status r)) = Some (JStr t)
        /\ json_field "status" (api_error t (status r)) = Some (JNum (status r)))
  /\ (forall message : string,
        text r = Rejected message ->
        fst (Railway.get_v1 API_KEY e req w)
        = Normal (Response 500 (proxy_error message))).
Proof.
  intros Hmiss Hkey Hup Hok.
  rewrite (get_v1_forward API_KEY e req w Hmiss Hkey), Hup, Hok.
  destruct (text r) as [t | message]; cbn.
  - split; [reflexivity |]. split.
    + intros t' [= <-]. repeat split; reflexivity.
    + intros message. discriminate.
  - split; [reflexivity |]. split.
    + intros t. discriminate.
    + intros message' [= <-]. reflexivity.
Qed.

Lemma upstream_error_relayed_witness :
  ok Sample.answer_429 = false
  /\ text Sample.answer_429 = Fulfilled Sample.retry_after_text
  /\ fst (Railway.get_v1 None (Sample.env_answer 1000 Sample.answer_429)
            (Sample.req_events (Some "client-key")) Sample.world_empty)
     = Normal (Response 429 (api_error Sample.retry_after_text 429)).
Proof.
  split; [reflexivity |]. split; [reflexivity |].
  exact (proj1 (proj1 (proj2 (upstream_error_relayed None
                                (Sample.env_answer 1000 Sample.answer_429)
                                (Sample.req_events (Some "client-key"))
                                Sample.world_empty Sample.answer_429
                                eq_refl eq_refl eq_refl eq_refl))
                  Sample.retry_after_text eq_refl)).
Defined.

(** ** Failures *)

(** On promises that settle, the handler over promises that may stay
    pending runs as the handler of module [Railway] does. *)
Lemma settling_runs_agree (API_KEY : option string) (e : env) (req : request)
    (w : world) :
  Awaiting.get_v1 API_KEY (settled_env e) req w
  = (settled_outcome (fst (Railway.get_v1 API_KEY e req w)),
     snd (Railway.get_v1 API_KEY e req w)).
Proof.
  get_v1_cases API_KEY e req w;
    unfold Awaiting.get_v1, Awaiting.try_catch, Awaiting.get_v1_try, Awaiting.bind,
      Awaiting.cache_get, Awaiting.fetch, Awaiting.await; cbn;
    rewrite Hlookup; cbn; [reflexivity | | rewrite Hkey; reflexivity].
  rewrite Hkey; cbn.
  destruct (upstream e (upstream_url req) (js_or (x_api_key req) API_KEY))
    as [r | message]; cbn; [| reflexivity].
  change (Awaiting.ok (settled_response r)) with (ok r).
  destruct (ok r); cbn.
  - destruct (json_body r); reflexivity.
  - destruct (text r); reflexivity.
Qed.

(** How a run over promises that may stay pending ends. *)
Lemma awaiting_get_v1_forward (API_KEY : option string) (e : Awaiting.env)
    (req : request) (w : world) :
  cache_hit CACHE_DURATION (Awaiting.now_check e) (cache w !! upstream_url req) = None ->
  truthy (js_or (x_api_key req) API_KEY) = true ->
  fst (Awaiting.get_v1 API_KEY e req w) =
  match Awaiting.upstream e (upstream_url req) (js_or (x_api_key req) API_KEY) with
  | Awaiting.Pending => Awaiting.Suspended
  | Awaiting.Settles (Rejected message) =>
      Awaiting.Returned (Response 500 (proxy_error message))
  | Awaiting.Settles (Fulfilled r) =>
      if Awaiting.ok r then
        match Awaiting.json_body r with
        | Awaiting.Pending => Awaiting.Suspended
        | Awaiting.Settles (Rejected message) =>
            Awaiting.Returned (Response 500 (proxy_error message))
        | Awaiting.Settles (Fulfilled d) => Awaiting.Returned (Response 200 d)
        end
      else
        match Awaiting.text r with
        | Awaiting.Pending => Awaiting.Suspended
        | Awaiting.Settles (Rejected message) =>
            Awaiting.Returned (Response 500 (proxy_error message))
        | Awaiting.Settles (Fulfilled t) =>
            Awaiting.Returned
              (Response (Awaiting.status r) (api_error t (Awaiting.status r)))
        end
  end.
Proof.
  intros Hmiss Hkey.
  unfold Awaiting.get_v1, Awaiting.try_catch, Awaiting.get_v1_try, Awaiting.bind,
    Awaiting.cache_get, Awaiting.fetch, Awaiting.await; cbn.
  rewrite Hmiss, Hkey; cbn.
  destruct (Awaiting.upstream e (upstream_url req) (js_or (x_api_key req) API_KEY))
    as [[r | message] |]; cbn; [| reflexivity | reflexivity].
  destruct (Awaiting.ok r); cbn.
  - destruct (Awaiting.json_body r) as [[d | message] |]; reflexivity.
  - destruct (Awaiting.text r) as [[t | message] |]; reflexivity.
Qed.

(** C6, as stated, fails: nothing bounds the time the handler awaits the
    upstream.  With a configured key, an empty store and an upstream that
    never answers the call, [GET /v1/events?league=NBA] makes its upstream
    call and stays suspended at [await fetch]: the request gets no answer,
    neither the payload nor a [proxy_error]. *)
Lemma pending_upstream_leaves_request_unanswered :
  Awaiting.get_v1 (Some "env-key") (Awaiting.env_silent 1000) (Sample.req_events None)
    Sample.world_empty
  = (Awaiting.Suspended, World ∅ [UpstreamCall Sample.url_events (Some "env-key")])
  /\ (forall resp : response,
        fst (Awaiting.get_v1 (Some "env-key") (Awaiting.env_silent 1000)
               (Sample.req_events None) Sample.world_empty)
        <> Awaiting.Returned resp).
Proof.
  split; [vm_compute; reflexivity |]. intros resp. vm_compute. discriminate.
Qed.

(** C6, amended.  The handler never ends by throwing.  Whatever is thrown
    inside the [try] block is answered with HTTP 500 and the envelope of
    kind [proxy_error] carrying the thrown message; in particular a failed
    upstream call (network error), a success status whose body does not
    parse, and an error body that cannot be read.  The handler answers every
    request except when a promise it awaits never settles: it stays
    suspended, without an answer, exactly when there is no fresh entry, a
    credential resolves, and the upstream call or the reading of the body
    (as JSON after a success status, as text otherwise) stays pending. *)
Theorem failures_become_proxy_error (API_KEY : option string) (e : Awaiting.env)
    (req : request) (w : world) :
  (forall message : string,
     fst (Awaiting.get_v1 API_KEY e req w) <> Awaiting.Raised message)
  /\ (forall (message : string) (w' : world),
        Awaiting.get_v1_try API_KEY e req w = (Awaiting.Raised message, w') ->
        Awaiting.get_v1 API_KEY e req w
        = (Awaiting.Returned (Response 500 (proxy_error message)), w')
        /\ error_kind (Response 500 (proxy_error message)) = Some (JStr "proxy_error")
        /\ json_field "message" (proxy_error message) = Some (JStr message))
  /\ (cache_hit CACHE_DURATION (Awaiting.now_check e) (cache w !! upstream_url req)
      = None ->
      truthy (js_or (x_api_key req) API_KEY) = true ->
      forall message : string,
        (Awaiting.upstream e (upstream_url req) (js_or (x_api_key req) API_KEY)
         = Awaiting.Settles (Rejected message)
         \/ exists r : Awaiting.fetch_response,
              Awaiting.upstream e (upstream_url req) (js_or (x_api_key req) API_KEY)
              = Awaiting.Settles (Fulfilled r)
              /\ (Awaiting.ok r = true
                  /\ Awaiting.json_body r = Awaiting.Settles (Rejected message)
                  \/ Awaiting.ok r = false
                     /\ Awaiting.text r = Awaiting.Settles (Rejected message))) ->
        fst (Awaiting.get_v1 API_KEY e req w)
        = Awaiting.Returned (Response 500 (proxy_error message)))
  /\ (fst (Awaiting.get_v1 API_KEY e req w) = Awaiting.Suspended
      <-> cache_hit CACHE_DURATION (Awaiting.now_check e) (cache w !! upstream_url req)
          = None
          /\ truthy (js_or (x_api_key req) API_KEY) = true
          /\ (Awaiting.upstream e (upstream_url req) (js_or (x_api_key req) API_KEY)
              = Awaiting.Pending
              \/ exists r : Awaiting.fetch_response,
                   Awaiting.upstream e (upstream_url req) (js_or (x_api_key req) API_KEY)
                   = Awaiting.Settles (Fulfilled r)
                   /\ (Awaiting.ok r = true /\ Awaiting.json_body r = Awaiting.Pending
                       \/ Awaiting.ok r = false /\ Awaiting.text r = Awaiting.Pending)))
  /\ (fst (Awaiting.get_v1 API_KEY e req w) <> Awaiting.Suspended ->
      exists resp : response,
        fst (Awaiting.get_v1 API_KEY e req w) = Awaiting.Returned resp).
Proof.
  assert (Hnever : forall message : string,
            fst (Awaiting.get_v1 API_KEY e req w) <> Awaiting.Raised message).
  { intros message. unfold Awaiting.get_v1, Awaiting.try_catch.
    destruct (Awaiting.get_v1_try API_KEY e req w) as [[resp | m |] w']; cbn;
      discriminate. }
  split; [exact Hnever |]. split; [| split; [| split]].
  - intros message w' Htry.
    unfold Awaiting.get_v1, Awaiting.try_catch. rewrite Htry.
    repeat split; reflexivity.
  - intros Hmiss Hkey message Hfail.
    rewrite (awaiting_get_v1_forward API_KEY e req w Hmiss Hkey).
    destruct Hfail as [Hup | (r & Hup & [[Hok Hbody] | [Hok Hbody]])];
      rewrite Hup; [reflexivity | |]; rewrite Hok, Hbody; reflexivity.
  - destruct (cache_hit CACHE_DURATION (Awaiting.now_check e)
                (cache w !! upstream_url req)) as [c |] eqn:Hlookup.
    { split.
      - unfold Awaiting.get_v1, Awaiting.try_catch, Awaiting.get_v1_try,
          Awaiting.bind, Awaiting.cache_get; cbn. rewrite Hlookup. cbn. discriminate.
      - intros [H _]. discriminate H. }
    destruct (truthy (js_or (x_api_key req) API_KEY)) eqn:Hkey.
    2:{ split.
        - unfold Awaiting.get_v1, Awaiting.try_catch, Awaiting.get_v1_try,
            Awaiting.bind, Awaiting.cache_get; cbn. rewrite Hlookup, Hkey. cbn.
          discriminate.
        - intros (_ & H & _). discriminate H. }
    rewrite (awaiting_get_v1_forward API_KEY e req w Hlookup Hkey).
    destruct (Awaiting.upstream e (upstream_url req) (js_or (x_api_key req) API_KEY))
      as [[r | message] |] eqn:Hup.
    + destruct (Awaiting.ok r) eqn:Hok.
      * destruct (Awaiting.json_body r) as [[d | message] |] eqn:Hbody; split;
          try discriminate;
          try (intros (_ & _ & [H | (r' & [= <-] & [[_ H] | [H _]])]);
               congruence).
        intros _. split; [reflexivity |]. split; [reflexivity |].
        right. exists r. split; [reflexivity |]. left. auto.
      * destruct (Awaiting.text r) as [[t | message] |] eqn:Hbody; split;
          try discriminate;
          try (intros (_ & _ & [H | (r' & [= <-] & [[H _] | [_ H]])]);
               congruence).
        intros _. split; [reflexivity |]. split; [reflexivity |].
        right. exists r. split; [reflexivity |]. right. auto.
    + split; [discriminate |].
      intros (_ & _ & [H | (r' & H & _)]); discriminate H.
    + split; [| reflexivity]. intros _. auto.
  - intros Hanswered.
    destruct (fst (Awaiting.get_v1 API_KEY e req w)) as [resp | message |] eqn:Hrun.
    + exists resp. reflexivity.
    + exfalso. exact (Hnever message eq_refl).
    + contradiction.
Qed.

Lemma failures_become_proxy_error_witness :
  Awaiting.ok (settled_response Sample.answer_malformed) = true
  /\ Awaiting.json_body (settled_response Sample.answer_malformed)
     = Awaiting.Settles (Rejected "Unexpected token < in JSON at position 0")
  /\ fst (Awaiting.get_v1 (Some "env-key")
            (settled_env (Sample.env_answer 1000 Sample.answer_malformed))
            (Sample.req_events None) Sample.world_empty)
     = Awaiting.Returned
         (Response 500 (proxy_error "Unexpected token < in JSON at position 0")).
Proof.
  split; [reflexivity |]. split; [reflexivity |].
  exact (proj1 (proj2 (proj2 (failures_become_proxy_error (Some "env-key")
                                (settled_env
                                   (Sample.env_answer 1000 Sample.answer_malformed))
                                (Sample.req_events None) Sample.world_empty)))
           eq_refl eq_refl "Unexpected token < in JSON at position 0"%string
           (or_intror (ex_intro _ (settled_response Sample.answer_malformed)
                         (conj eq_refl (or_introl (conj eq_refl eq_refl)))))).
Defined.

(** ** Which key goes upstream *)

(** C7, as stated, fails for a header that is present and empty: the
    request carries [X-API-Key:] with the empty value, a key is configured,
    and the upstream call is issued with the configured key, not with the
    header's value. *)
Lemma empty_header_falls_back_to_env :
  x_api_key (Sample.req_events (Some EmptyString)) = Some EmptyString
  /\ fetched (snd (Railway.get_v1 (Some "env-key")
                     (Sample.env_answer 1000 Sample.answer_ok)
                     (Sample.req_events (Some EmptyString)) Sample.world_empty))
     = [UpstreamCall Sample.url_events (Some "env-key")]
  /\ UpstreamCall Sample.url_events (Some "env-key")
     <> UpstreamCall Sample.url_events (Some EmptyString).
Proof. split; [reflexivity |]. split; [vm_compute; reflexivity | discriminate]. Qed.

(** C7, amended.  A run issues at most one upstream call, to the derived
    URL.  When the request carries a non-empty [X-API-Key] header the call
    is issued with the header's value, whatever the configured key; when
    the header is absent or empty it is issued with the configured key. *)
Theorem credential_resolution (API_KEY : option string) (e : env) (req : request)
    (w : world) (c : upstream_call) (calls : list upstream_call) :
  fetched (snd (Railway.get_v1 API_KEY e req w)) = c :: calls ->
  fetched w = calls ->
  call_url c = upstream_url req
  /\ (forall h : string,
        x_api_key req = Some h -> h <> EmptyString -> call_key c = Some h)
  /\ (x_api_key req = None \/ x_api_key req = Some EmptyString ->
      call_key c = API_KEY).
Proof.
  intros Hcall Hcalls. subst calls.
  assert (Hc : c = UpstreamCall (upstream_url req) (js_or (x_api_key req) API_KEY)).
  { revert Hcall. get_v1_cases API_KEY e req w; cbn.
    - intros H. apply (f_equal (@length _)) in H. cbn in H. lia.
    - destruct (upstream e (upstream_url req) (js_or (x_api_key req) API_KEY))
        as [r | message]; cbn.
      + destruct (ok r); [destruct (json_body r) | destruct (text r)]; cbn;
          intros [= <-]; reflexivity.
      + intros [= <-]; reflexivity.
    - intros H. apply (f_equal (@length _)) in H. cbn in H. lia. }
  subst c. cbn. split; [reflexivity |]. split.
  - intros h -> Hne. unfold js_or. cbn. destruct h; [contradiction | reflexivity].
  - intros [-> | ->]; reflexivity.
Qed.

Lemma credential_resolution_witness :
  fetched (snd (Railway.get_v1 (Some "env-key")
                  (Sample.env_answer 1000 Sample.answer_ok)
                  (Sample.req_events (Some "client-key")) Sample.world_empty))
  = [UpstreamCall Sample.url_events (Some "client-key")]
  /\ call_key (UpstreamCall Sample.url_events (Some "client-key"))
     = Some "client-key"%string.
Proof.
  assert (H1 : fetched (snd (Railway.get_v1 (Some "env-key")
                               (Sample.env_answer 1000 Sample.answer_ok)
                               (Sample.req_events (Some "client-key"))
                               Sample.world_empty))
               = [UpstreamCall Sample.url_events (Some "client-key")])
    by (vm_compute; reflexivity).
  split; [exact H1 |].
  refine (proj1 (proj2 (credential_resolution (Some "env-key")
                          (Sample.env_answer 1000 Sample.answer_ok)
                          (Sample.req_events (Some "client-key")) Sample.world_empty
                          _ _ H1 eq_refl))
            "client-key"%string eq_refl _).
  discriminate.
Defined.

(** In [proxy.js] there is no configured key: every upstream call carries
    the header's value, which is not empty. *)
Lemma simple_calls_with_header (e : env) (version endpoint : string) (req : request)
    (w : world) (c : upstream_call) :
  fetched (snd (Simple.get_api e version endpoint req w)) = c :: fetched w ->
  call_key c = x_api_key req /\ truthy (x_api_key req) = true.
Proof.
  unfold Simple.get_api, try_catch, bind, fetch; cbn.
  destruct (truthy (x_api_key req)) eqn:Hkey; cbn.
  - destruct (upstream e _ (x_api_key req)) as [r | message]; cbn.
    + destruct (ok r); [destruct (json_body r) as [[] |] | destruct (text r)]; cbn;
        intros [= <-]; auto.
    + intros [= <-]; auto.
  - intros H. apply (f_equal (@length _)) in H. cbn in H. lia.
Qed.

(** In the middleware variant the header is not read: every miss calls the
    upstream with the configured key. *)
Lemma middleware_calls_with_env_key (API_KEY : option string) (e : env)
    (req : request) (w : world) :
  cache_hit CACHE_DURATION (now_check e) (cache w !! originalUrl req) = None ->
  fetched (snd (Middleware.get_v1 API_KEY e req w))
  = UpstreamCall (upstream_url req) API_KEY :: fetched w.
Proof.
  intros Hmiss.
  unfold Middleware.get_v1, Middleware.cacheMiddleware, bind, cache_get; cbn.
  rewrite Hmiss.
  unfold Middleware.get_v1_route, try_catch, bind, fetch, Middleware.wrapped_json,
    cache_set; cbn.
  destruct (upstream e (upstream_url req) API_KEY) as [r | message]; cbn;
    [| reflexivity].
  destruct (ok r); [destruct (json_body r) | destruct (text r)]; reflexivity.
Qed.

(** ** Clearing the store *)

(** A run that reached the upstream had a credential. *)
Lemma upstream_call_needs_key (API_KEY : option string) (e : env) (req : request)
    (w : world) (c : upstream_call) :
  fetched (snd (Railway.get_v1 API_KEY e req w)) = c :: fetched w ->
  truthy (js_or (x_api_key req) API_KEY) = true.
Proof.
  get_v1_cases API_KEY e req w; cbn; [| reflexivity |];
    intros H; apply (f_equal (@length _)) in H; cbn in H; lia.
Qed.

(** The middleware variant answers with [cache.size] read after the clear,
    which is 0 as well. *)
Lemma middleware_cache_clear (w : world) :
  Middleware.post_cache_clear w
  = (Normal (Response 200 (cache_cleared 0)), World ∅ (fetched w)).
Proof.
  unfold Middleware.post_cache_clear, bind, cache_clear, cache_size; cbn.
  rewrite map_size_empty. reflexivity.
Qed.

(** C9, as stated, fails for a cached [GET] that carries no credential:
    with no configured key, [GET /v1/events?league=NBA] without a header is
    served from the store; after [POST /cache/clear] its repeat is a miss
    that is refused with 401, and the upstream is not called. *)
Lemma cleared_cache_keyless_repeat_refused :
  fst (Railway.get_v1 None (Sample.env_answer 2000 Sample.answer_ok)
         (Sample.req_events None) (Sample.world_cached 1000))
  = Normal (Response 200 Sample.payload)
  /\ Railway.get_v1 None (Sample.env_answer 2001 Sample.answer_ok)
       (Sample.req_events None)
       (snd (Railway.post_cache_clear (Sample.world_cached 1000)))
     = (Normal (Response 401 Railway.missing_api_key), World ∅ [])
  /\ fetched (World ∅ []) = [].
Proof. repeat split; vm_compute; reflexivity. Qed.

(** C9, amended.  [POST /cache/clear], in the Railway files and in the
    middleware variant, empties the store and answers HTTP 200 with a body
    whose [size] is 0.  Any [GET] repeated right after it finds no entry for
    its key.  In the Railway files its run then calls the upstream again
    when the header or the configured key gives a credential, as for every
    [GET] whose answer had been fetched and stored, and answers 401 without
    a call otherwise; in the middleware variant its run always calls the
    upstream again. *)
Theorem cache_clear_forces_refetch (API_KEY : option string) (e : env)
    (req : request) (w : world) :
  Railway.post_cache_clear w
  = (Normal (Response 200 (cache_cleared 0)), World ∅ (fetched w))
  /\ Middleware.post_cache_clear w
     = (Normal (Response 200 (cache_cleared 0)), World ∅ (fetched w))
  /\ size (cache (snd (Railway.post_cache_clear w))) = 0%nat
  /\ size (cache (snd (Middleware.post_cache_clear w))) = 0%nat
  /\ json_field "size" (cache_cleared 0) = Some (JNum 0)
  /\ cache_hit CACHE_DURATION (now_check e)
       (cache (snd (Railway.post_cache_clear w)) !! upstream_url req) = None
  /\ cache_hit CACHE_DURATION (now_check e)
       (cache (snd (Middleware.post_cache_clear w)) !! originalUrl req) = None
  /\ (truthy (js_or (x_api_key req) API_KEY) = true ->
      fetched (snd (Railway.get_v1 API_KEY e req (snd (Railway.post_cache_clear w))))
      = UpstreamCall (upstream_url req) (js_or (x_api_key req) API_KEY) :: fetched w)
  /\ (truthy (js_or (x_api_key req) API_KEY) = false ->
      Railway.get_v1 API_KEY e req (snd (Railway.post_cache_clear w))
      = (Normal (Response 401 Railway.missing_api_key),
         snd (Railway.post_cache_clear w)))
  /\ (forall (e0 : env) (w0 w1 : world) (d : json) (c0 : upstream_call),
        Railway.get_v1 API_KEY e0 req w0 = (Normal (Response 200 d), w1) ->
        fetched w1 = c0 :: fetched w0 ->
        truthy (js_or (x_api_key req) API_KEY) = true)
  /\ fetched (snd (Middleware.get_v1 API_KEY e req (snd (Middleware.post_cache_clear w))))
     = UpstreamCall (upstream_url req) API_KEY :: fetched w.
Proof.
  assert (Hclear : Railway.post_cache_clear w
                   = (Normal (Response 200 (cache_cleared 0)), World ∅ (fetched w)))
    by reflexivity.
  rewrite Hclear, (middleware_cache_clear w). cbn [snd cache].
  assert (Hmiss : forall k : string,
            cache_hit CACHE_DURATION (now_check e) ((∅ : gmap string entry) !! k) = None)
    by (intros k; rewrite lookup_empty; reflexivity).
  split; [reflexivity |]. split; [reflexivity |].
  split; [apply map_size_empty |]. split; [apply map_size_empty |].
  split; [reflexivity |]. split; [apply Hmiss |]. split; [apply Hmiss |].
  split; [| split; [| split]].
  - intros Hkey.
    rewrite (get_v1_forward API_KEY e req (World ∅ (fetched w)) (Hmiss _) Hkey).
    destruct (upstream e (upstream_url req) (js_or (x_api_key req) API_KEY))
      as [r | message]; [| reflexivity].
    destruct (ok r); [destruct (json_body r) | destruct (text r)]; reflexivity.
  - intros Hkey.
    apply (get_v1_unauthorised API_KEY e req (World ∅ (fetched w)) (Hmiss _) Hkey).
  - intros e0 w0 w1 d c0 Hrun Hcall.
    apply (upstream_call_needs_key API_KEY e0 req w0 c0). rewrite Hrun. exact Hcall.
  - apply (middleware_calls_with_env_key API_KEY e req (World ∅ (fetched w))).
    apply Hmiss.
Qed.

Lemma cache_clear_forces_refetch_witness :
  Railway.get_v1 None (Sample.env_answer 1000 Sample.answer_ok)
    (Sample.req_events (Some "client-key")) Sample.world_empty
  = (Normal (Response 200 Sample.payload),
     World {[ Sample.url_events := Entry Sample.payload 1000 ]}
       [UpstreamCall Sample.url_events (Some "client-key")])
  /\ fetched (snd (Railway.get_v1 None (Sample.env_answer 1001 Sample.answer_ok)
                     (Sample.req_events (Some "client-key"))
                     (snd (Railway.post_cache_clear
                             (World {[ Sample.url_events := Entry Sample.payload 1000 ]}
                                [UpstreamCall Sample.url_events (Some "client-key")])))))
     = [UpstreamCall Sample.url_events (Some "client-key");
        UpstreamCall Sample.url_events (Some "client-key")].
Proof.
  assert (H1 : Railway.get_v1 None (Sample.env_answer 1000 Sample.answer_ok)
                 (Sample.req_events (Some "client-key")) Sample.world_empty
               = (Normal (Response 200 Sample.payload),
                  World {[ Sample.url_events := Entry Sample.payload 1000 ]}
                    [UpstreamCall Sample.url_events (Some "client-key")]))
    by (vm_compute; reflexivity).
  split; [exact H1 |].
  pose (T := cache_clear_forces_refetch None (Sample.env_answer 1001 Sample.answer_ok)
               (Sample.req_events (Some "client-key"))
               (World {[ Sample.url_events := Entry Sample.payload 1000 ]}
                  [UpstreamCall Sample.url_events (Some "client-key")])).
  destruct T as (_ & _ & _ & _ & _ & _ & _ & Hcall & _ & Hstored & _).
  apply Hcall.
  exact (Hstored (Sample.env_answer 1000 Sample.answer_ok) Sample.world_empty _
           Sample.payload (UpstreamCall Sample.url_events (Some "client-key"))
           H1 eq_refl).
Defined.

(** ** The cache key *)

Lemma append_nil_l (s : string) : EmptyString +:+ s = s.
Proof. reflexivity. Qed.

Lemma append_cons (c : ascii) (s t : string) : String c s +:+ t = String c (s +:+ t).
Proof. reflexivity. Qed.

Lemma append_nil_r (s : string) : s +:+ EmptyString = s.
Proof.
  induction s as [| c s IH]; [reflexivity |].
  rewrite append_cons, IH. reflexivity.
Qed.

Lemma append_cancel_l (a x y : string) : a +:+ x = a +:+ y -> x = y.
Proof.
  induction a as [| c a IH]; [auto |].
  rewrite !append_cons. intros [= H]. auto.
Qed.

Lemma occurs_append (d : ascii) (a b : string) :
  occurs d (a +:+ b) = occurs d a || occurs d b.
Proof.
  induction a as [| c a IH]; [reflexivity |].
  rewrite append_cons. cbn. rewrite IH. apply orb_assoc.
Qed.

(** Two strings cut at the first [d] agree on both sides of it. *)
Lemma split_at_first (d : ascii) (a1 a2 r1 r2 : string) :
  occurs d a1 = false -> occurs d a2 = false ->
  a1 +:+ String d r1 = a2 +:+ String d r2 ->
  a1 = a2 /\ r1 = r2.
Proof.
  revert a2. induction a1 as [| c1 a1 IH]; intros [| c2 a2];
    rewrite ?append_cons, ?append_nil_l; cbn.
  - intros _ _ [= ->]. auto.
  - intros _ H2 [= <- _]. rewrite Ascii.eqb_refl in H2. discriminate.
  - intros H1 _ [= -> _]. rewrite Ascii.eqb_refl in H1. discriminate.
  - intros H1 H2 [= -> H].
    apply orb_false_elim in H1 as [_ H1]. apply orb_false_elim in H2 as [_ H2].
    destruct (IH a2 H1 H2 H) as [-> ->]. auto.
Qed.

Lemma no_first_occurrence (d : ascii) (a b r : string) :
  occurs d a = false -> a <> b +:+ String d r.
Proof.
  intros Ha ->. rewrite occurs_append in Ha. cbn in Ha.
  rewrite Ascii.eqb_refl, orb_true_r in Ha. discriminate.
Qed.

(** The encoding of a byte never contains [&], [=] or [?], and can be
    read back. *)
Lemma urlencode_byte_reserved (c : ascii) :
  occurs "&" (urlencode_byte c) = false
  /\ occurs "=" (urlencode_byte c) = false
  /\ occurs "?" (urlencode_byte c) = false.
Proof.
  destruct c as [[] [] [] [] [] [] [] []]; vm_compute; auto.
Qed.

Lemma urldecode_first_byte (c : ascii) (rest : string) :
  urldecode_first (urlencode_byte c +:+ rest) = Some (c, rest).
Proof.
  destruct c as [[] [] [] [] [] [] [] []]; reflexivity.
Qed.

Lemma urlencode_reserved (s : string) :
  occurs "&" (urlencode s) = false
  /\ occurs "=" (urlencode s) = false
  /\ occurs "?" (urlencode s) = false.
Proof.
  induction s as [| c s (IH1 & IH2 & IH3)]; cbn; [auto |].
  rewrite !occurs_append, IH1, IH2, IH3.
  destruct (urlencode_byte_reserved c) as (-> & -> & ->). auto.
Qed.

Lemma urlencode_inj (s1 s2 : string) : urlencode s1 = urlencode s2 -> s1 = s2.
Proof.
  revert s2. induction s1 as [| c1 s1 IH]; intros [| c2 s2]; cbn; intros H.
  - reflexivity.
  - apply (f_equal urldecode_first) in H.
    rewrite urldecode_first_byte in H. discriminate.
  - apply (f_equal urldecode_first) in H.
    rewrite urldecode_first_byte in H. discriminate.
  - apply (f_equal urldecode_first) in H.
    rewrite !urldecode_first_byte in H. injection H as -> H.
    rewrite (IH s2 H). reflexivity.
Qed.

(** The serialization of a list of pairs: the first name, [=], and the
    rest. *)
Lemma urlencoded_serialize_cons (k v : string) (rest : list (string * string)) :
  urlencoded_serialize ((k, v) :: rest)
  = urlencode k
      +:+ String "=" (urlencode v
                        +:+ match rest with
                            | [] => EmptyString
                            | _ :: _ => String "&" (urlencoded_serialize rest)
                            end).
Proof. destruct rest; [rewrite append_nil_r |]; reflexivity. Qed.

Lemma urlencoded_serialize_inj (l1 l2 : list (string * string)) :
  urlencoded_serialize l1 = urlencoded_serialize l2 -> l1 = l2.
Proof.
  revert l2. induction l1 as [| [k1 v1] r1 IH]; intros [| [k2 v2] r2].
  - reflexivity.
  - rewrite urlencoded_serialize_cons. intros H.
    exfalso. exact (no_first_occurrence "=" EmptyString _ _ eq_refl H).
  - rewrite urlencoded_serialize_cons. intros H. symmetry in H.
    exfalso. exact (no_first_occurrence "=" EmptyString _ _ eq_refl H).
  - rewrite !urlencoded_serialize_cons. intros H.
    destruct (urlencode_reserved k1) as (_ & Hk1 & _).
    destruct (urlencode_reserved k2) as (_ & Hk2 & _).
    destruct (urlencode_reserved v1) as (Hv1 & _ & _).
    destruct (urlencode_reserved v2) as (Hv2 & _ & _).
    apply (split_at_first "=" _ _ _ _ Hk1 Hk2) in H as [Hk Hrest].
    apply urlencode_inj in Hk as ->.
    destruct r1 as [| p1 r1], r2 as [| p2 r2].
    + rewrite !append_nil_r in Hrest. apply urlencode_inj in Hrest as ->. reflexivity.
    + rewrite append_nil_r in Hrest.
      exfalso. exact (no_first_occurrence "&" _ _ _ Hv1 Hrest).
    + rewrite append_nil_r in Hrest. symmetry in Hrest.
      exfalso. exact (no_first_occurrence "&" _ _ _ Hv2 Hrest).
    + apply (split_at_first "&" _ _ _ _ Hv1 Hv2) in Hrest as [Hv Hrest].
      apply urlencode_inj in Hv as ->. rewrite (IH _ Hrest). reflexivity.
Qed.

Lemma urlencoded_serialize_reserved (l : list (string * string)) :
  occurs "?" (urlencoded_serialize l) = false.
Proof.
  induction l as [| [k v] rest IH]; [reflexivity |].
  rewrite urlencoded_serialize_cons, occurs_append. cbn. rewrite occurs_append.
  destruct (urlencode_reserved k) as (_ & _ & ->).
  destruct (urlencode_reserved v) as (_ & _ & ->).
  destruct rest; [reflexivity |]. cbn in *. exact IH.
Qed.

Lemma URLSearchParams_flat_inj (q1 q2 : list (string * qval)) :
  flat_query q1 = true -> flat_query q2 = true ->
  URLSearchParams q1 = URLSearchParams q2 -> q1 = q2.
Proof.
  revert q2. induction q1 as [| [k1 v1] q1 IH]; intros [| [k2 v2] q2]; cbn;
    try discriminate; [reflexivity |].
  intros H1 H2 [= -> Hv Hrest].
  apply andb_prop in H1 as [Hs1 H1]. apply andb_prop in H2 as [Hs2 H2].
  destruct v1; try discriminate. destruct v2; try discriminate.
  cbn in Hv. subst. rewrite (IH q2 H1 H2 Hrest). reflexivity.
Qed.

Lemma truthy_str_false (s : string) : truthy_str s = false <-> s = EmptyString.
Proof. destruct s; cbn; split; congruence. Qed.

(** The derived URL determines the path and the serialized query, for
    paths without [?] as [req.path] gives them. *)
Lemma upstream_url_inj (r1 r2 : request) :
  occurs "?" (req_path r1) = false ->
  occurs "?" (req_path r2) = false ->
  upstream_url r1 = upstream_url r2 ->
  req_path r1 = req_path r2
  /\ URLSearchParams_toString (req_query r1) = URLSearchParams_toString (req_query r2).
Proof.
  intros Hp1 Hp2. unfold upstream_url. intros H.
  apply append_cancel_l in H.
  pose proof (urlencoded_serialize_reserved (URLSearchParams (req_query r1))) as Hq1.
  pose proof (urlencoded_serialize_reserved (URLSearchParams (req_query r2))) as Hq2.
  fold (URLSearchParams_toString (req_query r1)) in Hq1.
  fold (URLSearchParams_toString (req_query r2)) in Hq2.
  destruct (truthy_str (URLSearchParams_toString (req_query r1))) eqn:T1;
    destruct (truthy_str (URLSearchParams_toString (req_query r2))) eqn:T2.
  - rewrite !append_cons, !append_nil_l in H.
    apply (split_at_first "?" _ _ _ _ Hp1 Hp2) in H. exact H.
  - rewrite append_nil_r, append_cons, append_nil_l in H. symmetry in H.
    exfalso. exact (no_first_occurrence "?" _ _ _ Hp2 H).
  - rewrite append_nil_r, append_cons, append_nil_l in H.
    exfalso. exact (no_first_occurrence "?" _ _ _ Hp1 H).
  - rewrite !append_nil_r in H. apply truthy_str_false in T1, T2.
    rewrite T1, T2. auto.
Qed.

(** The handler reads the store at the derived URL only. *)
Lemma get_v1_reads_own_key (API_KEY : option string) (e : env) (req : request)
    (w1 w2 : world) :
  cache w1 !! upstream_url req = cache w2 !! upstream_url req ->
  fst (Railway.get_v1 API_KEY e req w1) = fst (Railway.get_v1 API_KEY e req w2).
Proof.
  intros Hsame.
  get_v1_cases API_KEY e req w1.
  - rewrite Hsame in Hlookup. rewrite (get_v1_hit API_KEY e req w2 c Hlookup).
    reflexivity.
  - rewrite Hsame in Hlookup. rewrite (get_v1_forward API_KEY e req w2 Hlookup Hkey).
    destruct (upstream e (upstream_url req) (js_or (x_api_key req) API_KEY))
      as [r | message]; [| reflexivity].
    destruct (ok r); [destruct (json_body r) | destruct (text r)]; reflexivity.
  - rewrite Hsame in Hlookup.
    rewrite (get_v1_unauthorised API_KEY e req w2 Hlookup Hkey). reflexivity.
Qed.

(** C8, as stated, fails in the direction from the key to the parameters:
    [GET /v1/odds?id=1&id=2], whose [id] is the array of [1] and [2], and
    [GET /v1/odds?id=1%2C2], whose [id] is the string [1,2], have different
    query parameters and the same cache key. *)
Lemma repeated_parameter_shares_key :
  req_path Sample.req_odds_twice = req_path Sample.req_odds_comma
  /\ req_query Sample.req_odds_twice <> req_query Sample.req_odds_comma
  /\ upstream_url Sample.req_odds_twice = upstream_url Sample.req_odds_comma
  /\ upstream_url Sample.req_odds_twice = "https://api.oddsengine.dev/v1/odds?id=1%2C2"%string.
Proof.
  split; [reflexivity |]. split; [discriminate |]. split; reflexivity.
Qed.

(** C8, amended.  In [railway-proxy-server.js] and
    [railway-proxy-server-fixed.js] the handler reads the store at the
    derived upstream URL only, and a successful miss writes there.  Two
    requests with the same path and the same query parameters have the same
    key; and two requests with the same key have the same path and, when
    all their query parameters are plain strings, the same query
    parameters. *)
Theorem cache_key_is_upstream_url (API_KEY : option string) (e : env)
    (r1 r2 : request) (w1 w2 : world) :
  occurs "?" (req_path r1) = false ->
  occurs "?" (req_path r2) = false ->
  (cache w1 !! upstream_url r1 = cache w2 !! upstream_url r1 ->
   fst (Railway.get_v1 API_KEY e r1 w1) = fst (Railway.get_v1 API_KEY e r1 w2))
  /\ (forall k : string,
        k <> upstream_url r1 ->
        cache (snd (Railway.get_v1 API_KEY e r1 w1)) !! k = cache w1 !! k)
  /\ (req_path r1 = req_path r2 -> req_query r1 = req_query r2 ->
      upstream_url r1 = upstream_url r2)
  /\ (upstream_url r1 = upstream_url r2 ->
      req_path r1 = req_path r2
      /\ (flat_query (req_query r1) = true -> flat_query (req_query r2) = true ->
          req_query r1 = req_query r2)).
Proof.
  intros Hp1 Hp2. split; [| split; [| split]].
  - apply get_v1_reads_own_key.
  - intros k Hk.
    destruct (railway_store_only_on_success API_KEY e r1 w1)
      as [H | (r & d & _ & _ & _ & _ & H)]; rewrite H; [reflexivity |].
    apply lookup_insert_ne. auto.
  - intros Hpath Hquery. unfold upstream_url. rewrite Hpath, Hquery. reflexivity.
  - intros Hurl. destruct (upstream_url_inj r1 r2 Hp1 Hp2 Hurl) as [Hpath Hqs].
    split; [exact Hpath |]. intros Hf1 Hf2.
    apply URLSearchParams_flat_inj; [assumption | assumption |].
    apply urlencoded_serialize_inj. exact Hqs.
Qed.

Lemma cache_key_is_upstream_url_witness :
  occurs "?" (req_path (Sample.req_events None)) = false
  /\ occurs "?" (req_path (Sample.req_events (Some "client-key"))) = false
  /\ upstream_url (Sample.req_events None)
     = upstream_url (Sample.req_events (Some "client-key"))
  /\ req_query (Sample.req_events None)
     = req_query (Sample.req_events (Some "client-key")).
Proof.
  split; [reflexivity |]. split; [reflexivity |]. split; [reflexivity |].
  exact (proj2 (proj2 (proj2 (proj2
           (cache_key_is_upstream_url None (Sample.env_down 0)
              (Sample.req_events None) (Sample.req_events (Some "client-key"))
              Sample.world_empty Sample.world_empty eq_refl eq_refl)))
           eq_refl)
         eq_refl eq_refl).
Defined.

(** The middleware variant keys the store by the inbound [originalUrl], not
    by the derived URL: the same path and parameters written in two ways
    get two entries. *)
Lemma middleware_key_is_original_url (API_KEY : option string) (e : env)
    (req : request) (w : world) :
  cache_hit CACHE_DURATION (now_check e) (cache w !! originalUrl req) = None ->
  exists body : json,
    cache (snd (Middleware.get_v1 API_KEY e req w))
    = <[originalUrl req := Entry body (now_store e)]> (cache w).
Proof.
  intros Hmiss.
  destruct (middleware_stores_every_answer API_KEY e req w Hmiss) as (resp & _ & H).
  exists (res_body resp). exact H.
Qed.

(** * Further properties of the handlers *)

(** ** One run of the [/v1] handler *)

(** X1. A request answered from the upstream and stored, then a request for
    the same derived URL (whatever its header) read less than 60000 ms after
    the store: the second is answered HTTP 200 with the payload the first
    one got, and the two runs together made one upstream call. *)
Theorem stored_answer_served_again (API_KEY : option string) (e e' : env)
    (req req' : request) (w : world) (r : fetch_response) (d : json) :
  cache_hit CACHE_DURATION (now_check e) (cache w !! upstream_url req) = None ->
  truthy (js_or (x_api_key req) API_KEY) = true ->
  upstream e (upstream_url req) (js_or (x_api_key req) API_KEY) = Fulfilled r ->
  ok r = true ->
  json_body r = Fulfilled d ->
  upstream_url req' = upstream_url req ->
  now_check e' - now_store e < 60000 ->
  fst (Railway.get_v1 API_KEY e req w) = Normal (Response 200 d)
  /\ fst (Railway.get_v1 API_KEY e' req' (snd (Railway.get_v1 API_KEY e req w)))
     = Normal (Response 200 d)
  /\ fetched (snd (Railway.get_v1 API_KEY e' req'
                     (snd (Railway.get_v1 API_KEY e req w))))
     = UpstreamCall (upstream_url req) (js_or (x_api_key req) API_KEY) :: fetched w.
Proof.
  intros Hmiss Hkey Hup Hok Hjson Hurl Httl.
  rewrite (get_v1_forward API_KEY e req w Hmiss Hkey), Hup, Hok, Hjson. cbn [fst snd].
  rewrite (get_v1_hit API_KEY e' req' _ (Entry d (now_store e))).
  - cbn. auto.
  - apply cache_hit_Some. cbn. rewrite Hurl.
    split; [apply lookup_insert_eq | exact Httl].
Qed.

Lemma stored_answer_served_again_witness :
  fst (Railway.get_v1 (Some "env-key") (Sample.env_down 61999)
         (Sample.req_events None)
         (snd (Railway.get_v1 (Some "env-key") (Sample.env_answer 2000 Sample.answer_ok)
                 (Sample.req_events (Some "client-key")) Sample.world_empty)))
  = Normal (Response 200 Sample.payload).
Proof.
  refine (proj1 (proj2 (stored_answer_served_again (Some "env-key")
                          (Sample.env_answer 2000 Sample.answer_ok)
                          (Sample.env_down 61999)
                          (Sample.req_events (Some "client-key"))
                          (Sample.req_events None) Sample.world_empty
                          Sample.answer_ok Sample.payload
                          eq_refl eq_refl eq_refl eq_refl eq_refl eq_refl _))).
  simpl. lia.
Defined.

(** X2. In [railway-proxy-server.js] and [railway-proxy-server-fixed.js] a
    run writes the store exactly when it fetches: with no fresh entry, a
    credential, a success status from the upstream and a body that parses,
    the answer is HTTP 200 with the parsed body and the store gets that one
    entry, under the derived URL, stamped with the clock read at the store;
    in every other run the store is left as it was.  Every answer with
    another status than 200 leaves the store unchanged. *)
Theorem railway_stores_only_success (API_KEY : option string) (e : env)
    (req : request) (w : world) :
  (forall d : json,
     stored_fetch API_KEY e req w d ->
     fst (Railway.get_v1 API_KEY e req w) = Normal (Response 200 d)
     /\ cache (snd (Railway.get_v1 API_KEY e req w))
        = <[upstream_url req := Entry d (now_store e)]> (cache w)
     /\ cache (snd (Railway.get_v1 API_KEY e req w)) !! upstream_url req
        = Some (Entry d (now_store e)))
  /\ ((forall d : json, ~ stored_fetch API_KEY e req w d) ->
      cache (snd (Railway.get_v1 API_KEY e req w)) = cache w)
  /\ (forall (resp : response) (w' : world),
        Railway.get_v1 API_KEY e req w = (Normal resp, w') ->
        res_status resp <> 200 ->
        cache w' = cache w).
Proof.
  destruct (railway_store_exact API_KEY e req w) as [Hstored Hkept].
  split; [| split].
  - intros d Hd. destruct (Hstored d Hd) as [Hfst Hstore].
    split; [exact Hfst |]. split; [exact Hstore |].
    rewrite Hstore. apply lookup_insert_eq.
  - exact Hkept.
  - intros resp w'. apply railway_store_unchanged_on_error.
Qed.

Lemma railway_stores_only_success_witness :
  stored_fetch None (Sample.env_answer 1000 Sample.answer_ok)
    (Sample.req_events (Some "client-key")) Sample.world_empty Sample.payload
  /\ cache (snd (Railway.get_v1 None (Sample.env_answer 1000 Sample.answer_ok)
                   (Sample.req_events (Some "client-key")) Sample.world_empty))
       !! upstream_url (Sample.req_events (Some "client-key"))
     = Some (Entry Sample.payload 1000).
Proof.
  assert (H : stored_fetch None (Sample.env_answer 1000 Sample.answer_ok)
                (Sample.req_events (Some "client-key")) Sample.world_empty
                Sample.payload).
  { split; [reflexivity |]. split; [reflexivity |].
    exists Sample.answer_ok. split; [reflexivity |]. split; reflexivity. }
  split; [exact H |].
  exact (proj2 (proj2 (proj1 (railway_stores_only_success None
                                (Sample.env_answer 1000 Sample.answer_ok)
                                (Sample.req_events (Some "client-key"))
                                Sample.world_empty)
                         Sample.payload H))).
Defined.

(** X3. A run makes no upstream call or exactly one; the call goes to the
    derived URL and carries a credential that is not empty.  There is no
    retry on any path, and the upstream is never called without a key. *)
Theorem railway_at_most_one_call (API_KEY : option string) (e : env)
    (req : request) (w : world) :
  fetched (snd (Railway.get_v1 API_KEY e req w)) = fetched w
  \/ (fetched (snd (Railway.get_v1 API_KEY e req w))
      = UpstreamCall (upstream_url req) (js_or (x_api_key req) API_KEY) :: fetched w
      /\ truthy (js_or (x_api_key req) API_KEY) = true).
Proof.
  get_v1_cases API_KEY e req w; [left; reflexivity | | left; reflexivity].
  right. split; [| reflexivity].
  destruct (upstream e (upstream_url req) (js_or (x_api_key req) API_KEY))
    as [r | message]; [| reflexivity].
  destruct (ok r); [destruct (json_body r) | destruct (text r)]; reflexivity.
Qed.

(** X4. A run never shrinks the store and adds at most one entry; when the
    derived URL already has an entry, fresh or stale, the number of entries
    does not change (a refetch overwrites in place). *)
Theorem railway_store_growth (API_KEY : option string) (e : env) (req : request)
    (w : world) :
  (size (cache w) <= size (cache (snd (Railway.get_v1 API_KEY e req w)))
   <= S (size (cache w)))%nat
  /\ (is_Some (cache w !! upstream_url req) ->
      size (cache (snd (Railway.get_v1 API_KEY e req w))) = size (cache w)).
Proof.
  destruct (railway_store_only_on_success API_KEY e req w)
    as [H | (r & d & _ & _ & _ & _ & H)]; rewrite H.
  - split; [lia | reflexivity].
  - rewrite map_size_insert.
    destruct (cache w !! upstream_url req) as [c |]; cbn.
    + split; [lia | reflexivity].
    + split; [lia |]. intros [c Hc]. discriminate Hc.
Qed.

(** X5. A header that is not empty makes the configured key irrelevant:
    the run is the same whatever [ODDSENGINE_API_KEY] holds. *)
Theorem header_makes_env_key_irrelevant (K1 K2 : option string) (e : env)
    (req : request) (w : world) :
  truthy (x_api_key req) = true ->
  Railway.get_v1 K1 e req w = Railway.get_v1 K2 e req w.
Proof.
  intros Hheader.
  assert (Hor : forall K, js_or (x_api_key req) K = x_api_key req)
    by (intros K; unfold js_or; rewrite Hheader; reflexivity).
  destruct (cache_hit CACHE_DURATION (now_check e) (cache w !! upstream_url req))
    as [c |] eqn:Hlookup.
  - rewrite !(get_v1_hit _ e req w c Hlookup). reflexivity.
  - rewrite (get_v1_forward K1 e req w Hlookup) by (rewrite Hor; exact Hheader).
    rewrite (get_v1_forward K2 e req w Hlookup) by (rewrite Hor; exact Hheader).
    rewrite !Hor. reflexivity.
Qed.

Lemma header_makes_env_key_irrelevant_witness :
  Railway.get_v1 None (Sample.env_answer 1000 Sample.answer_ok)
    (Sample.req_events (Some "client-key")) Sample.world_empty
  = Railway.get_v1 (Some "env-key") (Sample.env_answer 1000 Sample.answer_ok)
      (Sample.req_events (Some "client-key")) Sample.world_empty.
Proof.
  exact (header_makes_env_key_irrelevant None (Some "env-key")
           (Sample.env_answer 1000 Sample.answer_ok)
           (Sample.req_events (Some "client-key")) Sample.world_empty eq_refl).
Defined.

(** X6. The proxy answers with the status 200, 401 or 500, or with the
    status of an upstream answer that is not a success.  So it never answers
    with a success status other than 200: an upstream 201 is passed on as
    200. *)
Theorem railway_status_codes (API_KEY : option string) (e : env) (req : request)
    (w : world) (resp : response) (w' : world) :
  Railway.get_v1 API_KEY e req w = (Normal resp, w') ->
  (res_status resp = 200 \/ res_status resp = 401 \/ res_status resp = 500
   \/ exists r : fetch_response,
        upstream e (upstream_url req) (js_or (x_api_key req) API_KEY) = Fulfilled r
        /\ ok r = false /\ res_status resp = status r)
  /\ (200 <= res_status resp < 300 -> res_status resp = 200).
Proof.
  intros Hrun.
  assert (Hshape : res_status resp = 200 \/ res_status resp = 401
                   \/ res_status resp = 500
                   \/ exists r : fetch_response,
                        upstream e (upstream_url req) (js_or (x_api_key req) API_KEY)
                        = Fulfilled r
                        /\ ok r = false /\ res_status resp = status r).
  { revert Hrun. get_v1_cases API_KEY e req w.
    - intros [= <- _]. auto.
    - destruct (upstream e (upstream_url req) (js_or (x_api_key req) API_KEY))
        as [r | message] eqn:Hup.
      + destruct (ok r) eqn:Hok.
        * destruct (json_body r); intros [= <- _]; auto.
        * destruct (text r); intros [= <- _]; [| auto].
          right. right. right. exists r. auto.
      + intros [= <- _]. auto.
    - intros [= <- _]. auto. }
  split; [exact Hshape |].
  intros Hrange.
  destruct Hshape as [H | [H | [H | (r & _ & Hok & H)]]]; try lia.
  unfold ok in Hok. apply andb_false_iff in Hok as [Hok | Hok].
  - apply Z.leb_gt in Hok. lia.
  - apply Z.ltb_ge in Hok. lia.
Qed.

Lemma railway_status_codes_witness :
  Railway.get_v1 None (Sample.env_answer 1000 Traffic.answer_created)
    (Sample.req_events (Some "client-key")) Sample.world_empty
  = (Normal (Response 200 Sample.payload),
     World {[ Sample.url_events := Entry Sample.payload 1000 ]}
       [UpstreamCall Sample.url_events (Some "client-key")])
  /\ (200 <= res_status (Response 200 Sample.payload) < 300 ->
      res_status (Response 200 Sample.payload) = 200).
Proof.
  assert (H : Railway.get_v1 None (Sample.env_answer 1000 Traffic.answer_created)
                (Sample.req_events (Some "client-key")) Sample.world_empty
              = (Normal (Response 200 Sample.payload),
                 World {[ Sample.url_events := Entry Sample.payload 1000 ]}
                   [UpstreamCall Sample.url_events (Some "client-key")]))
    by (vm_compute; reflexivity).
  split; [exact H |].
  exact (proj2 (railway_status_codes None (Sample.env_answer 1000 Traffic.answer_created)
                  (Sample.req_events (Some "client-key")) Sample.world_empty _ _ H)).
Defined.

(** ** [/health] and the handler *)

(** X7. [api_key_configured] of [/health] tells whether a request without a
    usable header is refused.  When it is [true], no run of the [/v1]
    handler answers 401 [missing_api_key]; when it is [false], every request
    whose header is absent or empty and whose key has no fresh entry is
    answered 401 [missing_api_key].  The route leaves the world unchanged. *)
Theorem health_key_flag (env_PORT API_KEY : option string) (iso : string)
    (w0 : world) :
  snd (Health.fixed env_PORT API_KEY iso w0) = w0
  /\ (answer_field "api_key_configured" (Health.fixed env_PORT API_KEY iso w0)
      = Some (JBool true) ->
      forall (e : env) (req : request) (w : world),
        fst (Railway.get_v1 API_KEY e req w)
        <> Normal (Response 401 Railway.missing_api_key))
  /\ (answer_field "api_key_configured" (Health.fixed env_PORT API_KEY iso w0)
      = Some (JBool false) ->
      forall (e : env) (req : request) (w : world),
        truthy (x_api_key req) = false ->
        cache_hit CACHE_DURATION (now_check e) (cache w !! upstream_url req) = None ->
        Railway.get_v1 API_KEY e req w
        = (Normal (Response 401 Railway.missing_api_key), w)).
Proof.
  split; [reflexivity |]. split.
  - intros Hflag e req w.
    assert (HK : truthy API_KEY = true) by (cbn in Hflag; congruence).
    assert (Hkey : truthy (js_or (x_api_key req) API_KEY) = true).
    { unfold js_or. destruct (truthy (x_api_key req)) eqn:Hh; assumption. }
    destruct (cache_hit CACHE_DURATION (now_check e) (cache w !! upstream_url req))
      as [c |] eqn:Hlookup.
    + rewrite (get_v1_hit API_KEY e req w c Hlookup). cbn. discriminate.
    + rewrite (get_v1_forward API_KEY e req w Hlookup Hkey).
      destruct (upstream e (upstream_url req) (js_or (x_api_key req) API_KEY))
        as [r | message]; [| cbn; discriminate].
      destruct (ok r); [destruct (json_body r) | destruct (text r)]; cbn;
        discriminate.
  - intros Hflag e req w Hheader Hlookup.
    assert (HK : truthy API_KEY = false) by (cbn in Hflag; congruence).
    apply get_v1_unauthorised; [exact Hlookup |].
    unfold js_or. rewrite Hheader. exact HK.
Qed.

Lemma health_key_flag_witness :
  Railway.get_v1 (Some EmptyString) (Sample.env_down 0)
    (Sample.req_events (Some EmptyString)) Sample.world_empty
  = (Normal (Response 401 Railway.missing_api_key), Sample.world_empty).
Proof.
  exact (proj2 (proj2 (health_key_flag None (Some EmptyString) "2026-01-01T00:00:00.000Z"
                         Sample.world_empty))
           eq_refl (Sample.env_down 0) (Sample.req_events (Some EmptyString))
           Sample.world_empty eq_refl eq_refl).
Defined.

(** X8. [cache_size] of [/health], in both Railway files, is the number of
    entries of the store.  A request answered from the upstream and stored
    under a URL that had no entry raises it by exactly one. *)
Theorem health_counts_entries (env_PORT API_KEY : option string) (iso : string)
    (e : env) (req : request) (w : world) (r : fetch_response) (d : json) :
  cache w !! upstream_url req = None ->
  truthy (js_or (x_api_key req) API_KEY) = true ->
  upstream e (upstream_url req) (js_or (x_api_key req) API_KEY) = Fulfilled r ->
  ok r = true ->
  json_body r = Fulfilled d ->
  answer_field "cache_size" (Health.fixed env_PORT API_KEY iso w)
  = Some (JNum (Z.of_nat (size (cache w))))
  /\ answer_field "cache_size" (Health.original env_PORT iso w)
     = Some (JNum (Z.of_nat (size (cache w))))
  /\ answer_field "cache_size"
       (Health.fixed env_PORT API_KEY iso (snd (Railway.get_v1 API_KEY e req w)))
     = Some (JNum (Z.of_nat (size (cache w)) + 1))
  /\ answer_field "cache_size"
       (Health.original env_PORT iso (snd (Railway.get_v1 API_KEY e req w)))
     = Some (JNum (Z.of_nat (size (cache w)) + 1)).
Proof.
  intros Habsent Hkey Hup Hok Hjson.
  assert (Hmiss : cache_hit CACHE_DURATION (now_check e) (cache w !! upstream_url req)
                  = None) by (rewrite Habsent; reflexivity).
  rewrite (get_v1_forward API_KEY e req w Hmiss Hkey), Hup, Hok, Hjson.
  unfold answer_field, Health.fixed, Health.original, bind, cache_size; cbn.
  rewrite (map_size_insert_None _ _ _ Habsent).
  replace (Z.of_nat (S (size (cache w)))) with (Z.of_nat (size (cache w)) + 1) by lia.
  auto.
Qed.

Lemma health_counts_entries_witness :
  answer_field "cache_size"
    (Health.fixed None None "2026-01-01T00:00:00.000Z"
       (snd (Railway.get_v1 None (Sample.env_answer 1000 Sample.answer_ok)
               (Sample.req_events (Some "client-key")) Sample.world_empty)))
  = Some (JNum (Z.of_nat (size (cache Sample.world_empty)) + 1)).
Proof.
  exact (proj1 (proj2 (proj2 (health_counts_entries None None "2026-01-01T00:00:00.000Z"
                                (Sample.env_answer 1000 Sample.answer_ok)
                                (Sample.req_events (Some "client-key"))
                                Sample.world_empty Sample.answer_ok Sample.payload
                                eq_refl eq_refl eq_refl eq_refl eq_refl)))).
Defined.

(** ** The server over a sequence of requests *)

(** What one routed request adds to the call log and to the store. *)
Lemma route_step (env_PORT API_KEY : option string) (i : inbound) (w : world) :
  exists new : list upstream_call,
    fetched (snd (route env_PORT API_KEY i w)) = new ++ fetched w
    /\ Forall (fun c => truthy (call_key c) = true) new
    /\ (length new <= 1)%nat
    /\ (forall k : string,
          is_Some (cache (snd (route env_PORT API_KEY i w)) !! k) ->
          is_Some (cache w !! k) \/ exists c, In c new /\ call_url c = k)
    /\ (size (cache (snd (route env_PORT API_KEY i w)))
        <= size (cache w) + length new)%nat.
Proof.
  destruct i as [iso | | e req]; cbn [route].
  - exists []. cbn. repeat split; auto. lia.
  - exists []. cbn. repeat split; auto.
    + intros k [c Hc]. rewrite lookup_empty in Hc. discriminate.
    + rewrite map_size_empty. lia.
  - get_v1_cases API_KEY e req w.
    + exists []. cbn. repeat split; auto. lia.
    + exists [UpstreamCall (upstream_url req) (js_or (x_api_key req) API_KEY)].
      assert (Hnew : Forall (fun c => truthy (call_key c) = true)
                       [UpstreamCall (upstream_url req) (js_or (x_api_key req) API_KEY)])
        by (constructor; [exact Hkey | constructor]).
      destruct (upstream e (upstream_url req) (js_or (x_api_key req) API_KEY))
        as [r | message]; [| cbn; repeat split; auto; lia].
      destruct (ok r);
        [destruct (json_body r) as [d | message] | destruct (text r)];
        cbn; repeat split; auto; try lia.
      * intros k Hk. destruct (decide (upstream_url req = k)) as [<- | Hne].
        -- right. eexists. split; [left; reflexivity | reflexivity].
        -- rewrite lookup_insert_ne in Hk by assumption. auto.
      * rewrite map_size_insert. destruct (cache w !! upstream_url req); cbn; lia.
    + exists []. cbn. repeat split; auto. lia.
Qed.

Lemma serve_cons (env_PORT API_KEY : option string) (i : inbound)
    (rest : list inbound) (w : world) :
  snd (serve env_PORT API_KEY (i :: rest) w)
  = snd (serve env_PORT API_KEY rest (snd (route env_PORT API_KEY i w))).
Proof.
  cbn [serve]. destruct (route env_PORT API_KEY i w) as [answer w1]. cbn [snd].
  destruct (serve env_PORT API_KEY rest w1). reflexivity.
Qed.

Lemma serve_steps (env_PORT API_KEY : option string) (trace : list inbound) (w : world) :
  exists new : list upstream_call,
    fetched (snd (serve env_PORT API_KEY trace w)) = new ++ fetched w
    /\ Forall (fun c => truthy (call_key c) = true) new
    /\ (length new <= length trace)%nat
    /\ (forall k : string,
          is_Some (cache (snd (serve env_PORT API_KEY trace w)) !! k) ->
          is_Some (cache w !! k) \/ exists c, In c new /\ call_url c = k)
    /\ (size (cache (snd (serve env_PORT API_KEY trace w)))
        <= size (cache w) + length new)%nat.
Proof.
  revert w. induction trace as [| i rest IH]; intros w.
  - exists []. cbn. repeat split; auto. lia.
  - rewrite serve_cons.
    destruct (route_step env_PORT API_KEY i w) as (n1 & Hlog1 & Hkeys1 & Hlen1 & Hdom1 & Hsize1).
    destruct (IH (snd (route env_PORT API_KEY i w)))
      as (n2 & Hlog2 & Hkeys2 & Hlen2 & Hdom2 & Hsize2).
    exists (n2 ++ n1). rewrite Hlog2, Hlog1.
    split; [apply app_assoc |]. split; [apply Forall_app; auto |].
    split; [rewrite length_app; cbn; lia |]. split.
    + intros k Hk. destruct (Hdom2 k Hk) as [Hk1 | (c & Hin & Hc)].
      * destruct (Hdom1 k Hk1) as [Hk0 | (c & Hin & Hc)]; [auto |].
        right. exists c. split; [apply in_or_app; auto | exact Hc].
      * right. exists c. split; [apply in_or_app; auto | exact Hc].
    + rewrite length_app. lia.
Qed.

(** X9. Over any sequence of [/health], [/cache/clear] and [/v1] requests,
    handled one after the other from any store, the server only adds to the
    call log, at most one call per request, and every call it adds carries a
    credential that is not empty: the upstream is never called without a
    key. *)
Theorem served_calls_carry_credentials (env_PORT API_KEY : option string)
    (trace : list inbound) (w : world) :
  exists new : list upstream_call,
    fetched (snd (serve env_PORT API_KEY trace w)) = new ++ fetched w
    /\ (length new <= length trace)%nat
    /\ Forall (fun c => truthy (call_key c) = true) new.
Proof.
  destruct (serve_steps env_PORT API_KEY trace w) as (new & Hlog & Hkeys & Hlen & _).
  exists new. auto.
Qed.

(** X10. Over any such sequence, every key the store ends with was in the
    store at the start or is the URL of an upstream call made on the way,
    and the store has grown by at most the number of those calls: entries
    come from fetched answers only. *)
Theorem stored_entries_were_fetched (env_PORT API_KEY : option string)
    (trace : list inbound) (w : world) :
  exists new : list upstream_call,
    fetched (snd (serve env_PORT API_KEY trace w)) = new ++ fetched w
    /\ (forall k : string,
          is_Some (cache (snd (serve env_PORT API_KEY trace w)) !! k) ->
          is_Some (cache w !! k) \/ exists c, In c new /\ call_url c = k)
    /\ (size (cache (snd (serve env_PORT API_KEY trace w)))
        <= size (cache w) + length new)%nat.
Proof.
  destruct (serve_steps env_PORT API_KEY trace w) as (new & Hlog & _ & _ & Hdom & Hsize).
  exists new. auto.
Qed.

(** ** The middleware variant *)

Lemma middleware_hit (API_KEY : option string) (e : env) (req : request) (w : world)
    (c : entry) :
  cache_hit CACHE_DURATION (now_check e) (cache w !! originalUrl req) = Some c ->
  Middleware.get_v1 API_KEY e req w = (Normal (Response 200 (data c)), w).
Proof.
  intros Hhit.
  unfold Middleware.get_v1, Middleware.cacheMiddleware, bind, cache_get; cbn.
  rewrite Hhit. reflexivity.
Qed.

(** X11. In the middleware variant whatever a miss answers, with whatever
    status, is stored: a request with the same [originalUrl] read less than
    60000 ms after that store is answered HTTP 200 with the body of the
    first answer, and the upstream is not called for it.  The status of the
    first answer is lost. *)
Theorem middleware_replays_any_answer (API_KEY K' : option string) (e e' : env)
    (req req' : request) (w : world) :
  cache_hit CACHE_DURATION (now_check e) (cache w !! originalUrl req) = None ->
  originalUrl req' = originalUrl req ->
  now_check e' - now_store e < 60000 ->
  exists resp : response,
    fst (Middleware.get_v1 API_KEY e req w) = Normal resp
    /\ Middleware.get_v1 K' e' req' (snd (Middleware.get_v1 API_KEY e req w))
       = (Normal (Response 200 (res_body resp)),
          snd (Middleware.get_v1 API_KEY e req w)).
Proof.
  intros Hmiss Hurl Httl.
  destruct (middleware_stores_every_answer API_KEY e req w Hmiss) as (resp & Hfst & Hstore).
  exists resp. split; [exact Hfst |].
  apply (middleware_hit K' e' req' _ (Entry (res_body resp) (now_store e))).
  apply cache_hit_Some. rewrite Hurl, Hstore.
  split; [apply lookup_insert_eq | exact Httl].
Qed.

Lemma middleware_replays_any_answer_witness :
  exists resp : response,
    fst (Middleware.get_v1 (Some "env-key") (Sample.env_down 1000)
           (Sample.req_events None) Sample.world_empty)
    = Normal resp
    /\ Middleware.get_v1 (Some "env-key") (Sample.env_answer 60999 Sample.answer_ok)
         (Sample.req_events None)
         (snd (Middleware.get_v1 (Some "env-key") (Sample.env_down 1000)
                 (Sample.req_events None) Sample.world_empty))
       = (Normal (Response 200 (res_body resp)),
          snd (Middleware.get_v1 (Some "env-key") (Sample.env_down 1000)
                 (Sample.req_events None) Sample.world_empty)).
Proof.
  refine (middleware_replays_any_answer (Some "env-key") (Some "env-key")
            (Sample.env_down 1000) (Sample.env_answer 60999 Sample.answer_ok)
            (Sample.req_events None) (Sample.req_events None) Sample.world_empty
            eq_refl eq_refl _).
  simpl. lia.
Defined.

(** X12. The middleware variant never reads the [X-API-Key] header: two
    requests that differ in the header only have the same run, and every
    miss calls the upstream once, with the configured key, also when none is
    configured. *)
Theorem middleware_ignores_header (API_KEY : option string) (e : env)
    (path : string) (query : list (string * qval)) (h1 h2 : option string)
    (url : string) (w : world) :
  Middleware.get_v1 API_KEY e (Request path query h1 url) w
  = Middleware.get_v1 API_KEY e (Request path query h2 url) w
  /\ (cache_hit CACHE_DURATION (now_check e) (cache w !! url) = None ->
      fetched (snd (Middleware.get_v1 API_KEY e (Request path query h1 url) w))
      = UpstreamCall (upstream_url (Request path query h1 url)) API_KEY :: fetched w).
Proof.
  split; [reflexivity |].
  intros Hmiss. apply middleware_calls_with_env_key. exact Hmiss.
Qed.

(** X13. The middleware variant keys the store by the inbound URL as
    spelled.  Two requests with the same derived upstream URL and different
    [originalUrl], neither in the store: the second misses although the
    first has just been stored, the same upstream URL is called twice, and
    the store holds two entries more. *)
Theorem middleware_entries_by_spelling (API_KEY : option string) (e1 e2 : env)
    (r1 r2 : request) (w : world) :
  originalUrl r1 <> originalUrl r2 ->
  upstream_url r1 = upstream_url r2 ->
  cache w !! originalUrl r1 = None ->
  cache w !! originalUrl r2 = None ->
  fetched (snd (Middleware.get_v1 API_KEY e2 r2
                  (snd (Middleware.get_v1 API_KEY e1 r1 w))))
  = UpstreamCall (upstream_url r1) API_KEY
      :: UpstreamCall (upstream_url r1) API_KEY :: fetched w
  /\ size (cache (snd (Middleware.get_v1 API_KEY e2 r2
                         (snd (Middleware.get_v1 API_KEY e1 r1 w)))))
     = S (S (size (cache w))).
Proof.
  intros Hne Hurl Habs1 Habs2.
  assert (Hmiss1 : cache_hit CACHE_DURATION (now_check e1) (cache w !! originalUrl r1)
                   = None) by (rewrite Habs1; reflexivity).
  destruct (middleware_stores_every_answer API_KEY e1 r1 w Hmiss1) as (resp1 & _ & Hstore1).
  pose proof (middleware_calls_with_env_key API_KEY e1 r1 w Hmiss1) as Hlog1.
  set (w1 := snd (Middleware.get_v1 API_KEY e1 r1 w)) in *.
  assert (Habs2' : cache w1 !! originalUrl r2 = None).
  { rewrite Hstore1, lookup_insert_ne by exact Hne. exact Habs2. }
  assert (Hmiss2 : cache_hit CACHE_DURATION (now_check e2) (cache w1 !! originalUrl r2)
                   = None) by (rewrite Habs2'; reflexivity).
  destruct (middleware_stores_every_answer API_KEY e2 r2 w1 Hmiss2) as (resp2 & _ & Hstore2).
  rewrite (middleware_calls_with_env_key API_KEY e2 r2 w1 Hmiss2), Hlog1, <- Hurl.
  split; [reflexivity |].
  rewrite Hstore2, (map_size_insert_None _ _ _ Habs2'), Hstore1,
    (map_size_insert_None _ _ _ Habs1).
  reflexivity.
Qed.

Lemma middleware_entries_by_spelling_witness :
  fetched (snd (Middleware.get_v1 (Some "env-key")
                  (Sample.env_answer 1001 Sample.answer_ok)
                  (Traffic.req_events_spelled None)
                  (snd (Middleware.get_v1 (Some "env-key")
                          (Sample.env_answer 1000 Sample.answer_ok)
                          (Sample.req_events None) Sample.world_empty))))
  = [UpstreamCall Sample.url_events (Some "env-key");
     UpstreamCall Sample.url_events (Some "env-key")].
Proof.
  refine (proj1 (middleware_entries_by_spelling (Some "env-key")
                   (Sample.env_answer 1000 Sample.answer_ok)
                   (Sample.env_answer 1001 Sample.answer_ok)
                   (Sample.req_events None) (Traffic.req_events_spelled None)
                   Sample.world_empty _ eq_refl eq_refl eq_refl)).
  discriminate.
Defined.

(** ** [proxy.js] *)

(** X14. The handler of [proxy.js] never touches the store.  Without a
    header that is not empty it answers 401 and nothing is called; with one,
    its run makes exactly one upstream call, to the URL built from the route
    parameters and with the header's value. *)
Theorem simple_run_shape (e : env) (version endpoint : string) (req : request)
    (w : world) :
  cache (snd (Simple.get_api e version endpoint req w)) = cache w
  /\ (truthy (x_api_key req) = false ->
      Simple.get_api e version endpoint req w
      = (Normal (Response 401 (JObj [("error", JStr "X-API-Key header required")])), w))
  /\ (truthy (x_api_key req) = true ->
      fetched (snd (Simple.get_api e version endpoint req w))
      = UpstreamCall (Simple.upstream_url version endpoint (req_query req))
          (x_api_key req) :: fetched w).
Proof.
  assert (Hcase : forall P Q : Prop, (true = false -> P) /\ (true = true -> Q) <-> Q)
    by (intros P Q; split; [intros [_ H]; auto | intros H; split; [discriminate | auto]]).
  unfold Simple.get_api, try_catch, bind, fetch; cbn.
  destruct (truthy (x_api_key req)) eqn:Hkey; cbn.
  - destruct (upstream e _ (x_api_key req)) as [r | message]; cbn.
    + destruct (ok r); [destruct (json_body r) as [[] |] | destruct (text r)]; cbn;
        (split; [reflexivity | apply Hcase; reflexivity]).
    + split; [reflexivity | apply Hcase; reflexivity].
  - split; [reflexivity |]. split; [reflexivity | discriminate].
Qed.

(** X15. With a header that is not empty, [proxy.js] passes an upstream
    answer that is not a success on with the upstream's status, the text of
    its body as [details] and the status spelled out in [error].  A success
    is answered 200 with the parsed body, except when the body is the JSON
    value [null]: listing its keys for the log throws, and the answer is 500.
    A call that fails, or a body that cannot be read or parsed, is answered
    500 with the failure's message. *)
Theorem simple_relays_upstream (e : env) (version endpoint : string) (req : request)
    (w : world) :
  truthy (x_api_key req) = true ->
  fst (Simple.get_api e version endpoint req w)
  = Normal
      match upstream e (Simple.upstream_url version endpoint (req_query req))
              (x_api_key req) with
      | Rejected message => Simple.proxy_server_error message
      | Fulfilled r =>
          if ok r then
            match json_body r with
            | Fulfilled JNull =>
                Simple.proxy_server_error "Cannot convert undefined or null to object"
            | Fulfilled d => Response 200 d
            | Rejected message => Simple.proxy_server_error message
            end
          else
            match text r with
            | Fulfilled t =>
                Response (status r)
                  (JObj [("error", JStr ("OddsEngine API returned " +:+ pretty (status r)));
                         ("details", JStr t)])
            | Rejected message => Simple.proxy_server_error message
            end
      end.
Proof.
  intros Hkey.
  unfold Simple.get_api, try_catch, bind, fetch; cbn. rewrite Hkey; cbn.
  destruct (upstream e _ (x_api_key req)) as [r | message]; cbn; [| reflexivity].
  destruct (ok r); [destruct (json_body r) as [[] |] | destruct (text r)]; reflexivity.
Qed.

Lemma simple_relays_upstream_witness :
  fst (Simple.get_api
         (Sample.env_answer 1000 (FetchResponse 200 (Fulfilled "null") (Fulfilled JNull)))
         "v1" "events" (Sample.req_events (Some "client-key")) Sample.world_empty)
  = Normal (Simple.proxy_server_error "Cannot convert undefined or null to object").
Proof.
  exact (simple_relays_upstream
           (Sample.env_answer 1000 (FetchResponse 200 (Fulfilled "null") (Fulfilled JNull)))
           "v1" "events" (Sample.req_events (Some "client-key")) Sample.world_empty
           eq_refl).
Defined.

(** ** The derived URL *)

(** X17. The derived URL has a query part exactly when [req.query] has a
    property: with none it is the base URL and the path, nothing more; with
    one or more, [?] and a serialized query that is not empty and holds no
    [?] follow, so no parameter is dropped, even one whose name and value
    are empty. *)
Theorem query_suffix_iff_nonempty (req : request) :
  (req_query req = [] -> upstream_url req = ODDSENGINE_BASE_URL +:+ req_path req)
  /\ (req_query req <> [] ->
      URLSearchParams_toString (req_query req) <> EmptyString
      /\ occurs "?" (URLSearchParams_toString (req_query req)) = false
      /\ upstream_url req
         = ODDSENGINE_BASE_URL +:+ req_path req
             +:+ "?" +:+ URLSearchParams_toString (req_query req)).
Proof.
  split.
  - intros Hq. unfold upstream_url. rewrite Hq. cbn. rewrite append_nil_r. reflexivity.
  - intros Hq.
    assert (Hne : URLSearchParams_toString (req_query req) <> EmptyString).
    { intros Hempty. apply Hq.
      assert (Hl : URLSearchParams (req_query req) = []).
      { apply urlencoded_serialize_inj. exact Hempty. }
      destruct (req_query req); [reflexivity | discriminate Hl]. }
    split; [exact Hne |]. split; [apply urlencoded_serialize_reserved |].
    unfold upstream_url.
    destruct (URLSearchParams_toString (req_query req)) eqn:Hs;
      [contradiction | reflexivity].
Qed.

(** ** Clearing and failing *)

(** X18. The two [/cache/clear] routes behave alike although one answers
    the constant 0 and the other reads [cache.size] after the clear: both
    answer HTTP 200 with [size] 0, empty the store and leave the call log;
    [/health] of either variant then reports [cache_size] 0. *)
Theorem clear_routes_agree (env_PORT API_KEY : option string) (iso : string)
    (w : world) :
  Middleware.post_cache_clear w = Railway.post_cache_clear w
  /\ snd (Railway.post_cache_clear w) = World ∅ (fetched w)
  /\ answer_field "size" (Middleware.post_cache_clear w) = Some (JNum 0)
  /\ answer_field "cache_size"
       (Health.middleware iso (snd (Middleware.post_cache_clear w)))
     = Some (JNum 0)
  /\ answer_field "cache_size"
       (Health.fixed env_PORT API_KEY iso (snd (Railway.post_cache_clear w)))
     = Some (JNum 0).
Proof.
  rewrite middleware_cache_clear.
  unfold answer_field, Health.middleware, Health.fixed, Railway.post_cache_clear,
    bind, cache_clear, cache_size, ret; cbn.
  rewrite map_size_empty. cbn. auto.
Qed.

(** X19. There is no fallback to a stale entry.  When the entry for the
    derived URL is stale and the refetch fails (the call fails, or the
    upstream answers with a status that is not a success), the answer is the
    error, never the stale payload with 200, and the stale entry stays in
    the store as it was. *)
Theorem stale_entry_not_served_on_failure (API_KEY : option string) (e : env)
    (req : request) (w : world) (c : entry) :
  cache w !! upstream_url req = Some c ->
  60000 <= now_check e - timestamp c ->
  truthy (js_or (x_api_key req) API_KEY) = true ->
  (forall r : fetch_response,
     upstream e (upstream_url req) (js_or (x_api_key req) API_KEY) = Fulfilled r ->
     ok r = false) ->
  exists resp : response,
    fst (Railway.get_v1 API_KEY e req w) = Normal resp
    /\ res_status resp <> 200
    /\ cache (snd (Railway.get_v1 API_KEY e req w)) !! upstream_url req = Some c.
Proof.
  intros Hc Hstale Hkey Hfail.
  assert (Hmiss : cache_hit CACHE_DURATION (now_check e) (cache w !! upstream_url req)
                  = None).
  { apply cache_hit_None. intros c0. rewrite Hc. intros [= <-]. exact Hstale. }
  rewrite (get_v1_forward API_KEY e req w Hmiss Hkey).
  destruct (upstream e (upstream_url req) (js_or (x_api_key req) API_KEY))
    as [r | message] eqn:Hup.
  - pose proof (Hfail r eq_refl) as Hok. rewrite Hok.
    assert (Hstatus : status r <> 200).
    { unfold ok in Hok. apply andb_false_iff in Hok as [Hok | Hok].
      - apply Z.leb_gt in Hok. lia.
      - apply Z.ltb_ge in Hok. lia. }
    destruct (text r); eexists; cbn.
    + split; [reflexivity |]. split; [exact Hstatus | exact Hc].
    + split; [reflexivity |]. split; [discriminate | exact Hc].
  - eexists; cbn. split; [reflexivity |]. split; [discriminate | exact Hc].
Qed.

Lemma stale_entry_not_served_on_failure_witness :
  exists resp : response,
    fst (Railway.get_v1 (Some "env-key") (Sample.env_down 61000)
           (Sample.req_events None) (Sample.world_cached 1000))
    = Normal resp
    /\ res_status resp <> 200
    /\ cache (snd (Railway.get_v1 (Some "env-key") (Sample.env_down 61000)
                     (Sample.req_events None) (Sample.world_cached 1000)))
         !! upstream_url (Sample.req_events None)
       = Some (Entry Sample.payload 1000).
Proof.
  refine (stale_entry_not_served_on_failure (Some "env-key") (Sample.env_down 61000)
            (Sample.req_events None) (Sample.world_cached 1000)
            (Entry Sample.payload 1000) eq_refl _ eq_refl _).
  - simpl. lia.
  - intros r H. discriminate H.
Defined.
